(** * cmd/stats.go: the channel-fed performance statistics collector

    A shallow embedding of [PerformanceStats] (src/cmd/stats.go): the struct,
    its constructor, the two producer entry points, one iteration of the
    [statsCollector] loop for each [select] case, and the query functions,
    followed by the properties the specification states about them.

    Conventions.
    - [int64] fields are integers [Z]; every arithmetic operation the source
      performs on them is written with its two's-complement wrap-around
      ([int64.add], [int64.sub], [int64.incr]).
    - [float64] is Rocq's primitive binary64 type [float].
    - Go maps are [gmap]s; a lookup that misses is [None].
    - Clock reads ([time.Now()], [time.Since]) are inputs of the function that
      performs them.
    - The hdrhistogram-go package is an external dependency: it is an
      interface ([hdrhistogram.Capability]) every result is parametric in. *)

From Stdlib Require Import ZArith Lia Bool List.
From Stdlib Require Import Floats.
From stdpp Require Import base decidable option list sorting gmap fin_maps.

Local Open Scope Z_scope.

(** ** int64 arithmetic *)

Module int64.

Definition modulus : Z := 2 ^ 64.
Definition MaxInt64 : Z := 2 ^ 63 - 1.
Definition MinInt64 : Z := - 2 ^ 63.

(** The value an [int64] holds after a computation whose mathematical result
    is [z]. *)
Definition wrap (z : Z) : Z := (z + 2 ^ 63) mod modulus - 2 ^ 63.

Definition add (a b : Z) : Z := wrap (a + b).
Definition sub (a b : Z) : Z := wrap (a - b).
(** [x++] *)
Definition incr (a : Z) : Z := wrap (a + 1).

Definition in_range (z : Z) : Prop := MinInt64 <= z <= MaxInt64.

(** [float64(z)]: the conversion rounds to nearest, ties to even. *)
Definition to_float64 (z : Z) : float :=
  SF2Prim (binary_normalize prec emax z 0 false).

End int64.

(** ** package time *)

Module time.

(** A [time.Time], seen through the accessors the program can observe:
    [t.Unix()] (whole seconds since the epoch, an [int64]) and
    [t.Nanosecond()]. *)
Record Time : Type := mkTime { Unix : Z; Nanosecond : Z }.

End time.

(** ** package hdrhistogram (external) *)

Module hdrhistogram.

(** Modelled from the spec: the Histogram Capability (package
    github.com/HdrHistogram/hdrhistogram-go, imported by stats.go and not part
    of this repository).  Section 6 of the specification lists what the
    aggregator requires of it: construction from a lowest and a highest
    trackable value and a number of significant digits, [recordValue],
    [valueAtQuantile], [totalCount] and [max].  [RecordValue] returns the
    histogram after the call: the [error] it reports for a value outside the
    trackable range is discarded by every caller in stats.go.  The laws are
    the ones the statements below rest on: a new histogram is empty, and
    recording a value inside the trackable range adds one to the count. *)
Class Capability : Type := {
  Histogram : Type;
  New : Z -> Z -> Z -> Histogram;
  RecordValue : Histogram -> Z -> Histogram;
  TotalCount : Histogram -> Z;
  ValueAtQuantile : Histogram -> float -> Z;
  Max : Histogram -> Z;
  LowestTrackableValue : Histogram -> Z;
  HighestTrackableValue : Histogram -> Z;
  TotalCount_New : forall lo hi sig, TotalCount (New lo hi sig) = 0;
  LowestTrackableValue_New :
    forall lo hi sig, LowestTrackableValue (New lo hi sig) = lo;
  HighestTrackableValue_New :
    forall lo hi sig, HighestTrackableValue (New lo hi sig) = hi;
  LowestTrackableValue_RecordValue :
    forall h v, LowestTrackableValue (RecordValue h v) = LowestTrackableValue h;
  HighestTrackableValue_RecordValue :
    forall h v, HighestTrackableValue (RecordValue h v) = HighestTrackableValue h;
  TotalCount_RecordValue :
    forall h v,
      LowestTrackableValue h <= v <= HighestTrackableValue h ->
      TotalCount h < int64.MaxInt64 ->
      TotalCount (RecordValue h v) = TotalCount h + 1
}.

End hdrhistogram.

(** ** Buffered channels *)

(** A Go channel [make(chan T, cap)]: the queued elements, oldest first, the
    capacity, and whether [close] was called on it. *)
Record chan (T : Type) : Type := mkChan {
  buf : list T;
  cap : Z;
  closed : bool
}.
Arguments mkChan {T} _ _ _.
Arguments buf {T} _.
Arguments cap {T} _.
Arguments closed {T} _.

Definition make_chan {T : Type} (capacity : Z) : chan T :=
  mkChan [] capacity false.

(** [len(c)] *)
Definition chan_len {T : Type} (c : chan T) : Z := Z.of_nat (length (buf c)).

Definition chan_full {T : Type} (c : chan T) : Prop := cap c <= chan_len c.

(** The send [case c <- x:] of a [select] that has a [default:] branch: the
    element is queued when the buffer has room, and the [default] branch runs
    otherwise.  The boolean tells which branch ran. *)
Definition try_send {T : Type} (c : chan T) (x : T) : chan T * bool :=
  if chan_len c <? cap c
  then (mkChan (buf c ++ [x]) (cap c) (closed c), true)
  else (c, false).

(** The receive [case x := <-c:] of a [select] without [default]: ready when
    an element is queued, and then takes the oldest one. *)
Definition recv {T : Type} (c : chan T) : option (T * chan T) :=
  match buf c with
  | x :: rest => Some (x, mkChan rest (cap c) (closed c))
  | [] => None
  end.

(** ** The aggregator state *)

Definition MetricWindowSizeSeconds : Z := 5.

(** LatencyEvent represents a latency measurement event *)
Record LatencyEvent : Type := mkLatencyEvent {
  LatencyMicros : Z;
  Timestamp : time.Time
}.

Section Stats.

Context `{Hdr : hdrhistogram.Capability}.

(** PerformanceStats.  [Histogram] and [currentHistogram] are pointers that
    the constructor sets and that are only ever replaced by a newly allocated
    histogram, so they are never nil; an archived histogram is no longer
    written to once [currentHistogram] points to its successor, so histograms
    are passed by value. *)
Record PerformanceStats : Type := mkPerformanceStats {
  TotalOps : Z;
  SuccessOps : Z;
  FailedOps : Z;
  Histogram : hdrhistogram.Histogram;
  StartTime : time.Time;
  latencyChannel : chan LatencyEvent;
  errorChannel : chan unit;
  done : chan unit;
  currentWindowStartSecond : Z;
  currentHistogram : hdrhistogram.Histogram;
  windowedHistograms : gmap Z hdrhistogram.Histogram;
  perSecondOps : gmap Z Z;
  perSecondErrors : gmap Z Z;
  lastSecond : Z;
  currentSecondOps : Z;
  currentSecondErrors : Z
}.

(** Field assignments [ps.f = x]. *)

Definition set_TotalOps (x : Z) (ps : PerformanceStats) : PerformanceStats :=
  {| TotalOps := x;
     SuccessOps := SuccessOps ps;
     FailedOps := FailedOps ps;
     Histogram := Histogram ps;
     StartTime := StartTime ps;
     latencyChannel := latencyChannel ps;
     errorChannel := errorChannel ps;
     done := done ps;
     currentWindowStartSecond := currentWindowStartSecond ps;
     currentHistogram := currentHistogram ps;
     windowedHistograms := windowedHistograms ps;
     perSecondOps := perSecondOps ps;
     perSecondErrors := perSecondErrors ps;
     lastSecond := lastSecond ps;
     currentSecondOps := currentSecondOps ps;
     currentSecondErrors := currentSecondErrors ps |}.

Definition set_SuccessOps (x : Z) (ps : PerformanceStats) : PerformanceStats :=
  {| TotalOps := TotalOps ps;
     SuccessOps := x;
     FailedOps := FailedOps ps;
     Histogram := Histogram ps;
     StartTime := StartTime ps;
     latencyChannel := latencyChannel ps;
     errorChannel := errorChannel ps;
     done := done ps;
     currentWindowStartSecond := currentWindowStartSecond ps;
     currentHistogram := currentHistogram ps;
     windowedHistograms := windowedHistograms ps;
     perSecondOps := perSecondOps ps;
     perSecondErrors := perSecondErrors ps;
     lastSecond := lastSecond ps;
     currentSecondOps := currentSecondOps ps;
     currentSecondErrors := currentSecondErrors ps |}.

Definition set_FailedOps (x : Z) (ps : PerformanceStats) : PerformanceStats :=
  {| TotalOps := TotalOps ps;
     SuccessOps := SuccessOps ps;
     FailedOps := x;
     Histogram := Histogram ps;
     StartTime := StartTime ps;
     latencyChannel := latencyChannel ps;
     errorChannel := errorChannel ps;
     done := done ps;
     currentWindowStartSecond := currentWindowStartSecond ps;
     currentHistogram := currentHistogram ps;
     windowedHistograms := windowedHistograms ps;
     perSecondOps := perSecondOps ps;
     perSecondErrors := perSecondErrors ps;
     lastSecond := lastSecond ps;
     currentSecondOps := currentSecondOps ps;
     currentSecondErrors := currentSecondErrors ps |}.

Definition set_Histogram (x : hdrhistogram.Histogram) (ps : PerformanceStats) : PerformanceStats :=
  {| TotalOps := TotalOps ps;
     SuccessOps := SuccessOps ps;
     FailedOps := FailedOps ps;
     Histogram := x;
     StartTime := StartTime ps;
     latencyChannel := latencyChannel ps;
     errorChannel := errorChannel ps;
     done := done ps;
     currentWindowStartSecond := currentWindowStartSecond ps;
     currentHistogram := currentHistogram ps;
     windowedHistograms := windowedHistograms ps;
     perSecondOps := perSecondOps ps;
     perSecondErrors := perSecondErrors ps;
     lastSecond := lastSecond ps;
     currentSecondOps := currentSecondOps ps;
     currentSecondErrors := currentSecondErrors ps |}.

Definition set_latencyChannel (x : chan LatencyEvent) (ps : PerformanceStats) : PerformanceStats :=
  {| TotalOps := TotalOps ps;
     SuccessOps := SuccessOps ps;
     FailedOps := FailedOps ps;
     Histogram := Histogram ps;
     StartTime := StartTime ps;
     latencyChannel := x;
     errorChannel := errorChannel ps;
     done := done ps;
     currentWindowStartSecond := currentWindowStartSecond ps;
     currentHistogram := currentHistogram ps;
     windowedHistograms := windowedHistograms ps;
     perSecondOps := perSecondOps ps;
     perSecondErrors := perSecondErrors ps;
     lastSecond := lastSecond ps;
     currentSecondOps := currentSecondOps ps;
     currentSecondErrors := currentSecondErrors ps |}.

Definition set_errorChannel (x : chan unit) (ps : PerformanceStats) : PerformanceStats :=
  {| TotalOps := TotalOps ps;
     SuccessOps := SuccessOps ps;
     FailedOps := FailedOps ps;
     Histogram := Histogram ps;
     StartTime := StartTime ps;
     latencyChannel := latencyChannel ps;
     errorChannel := x;
     done := done ps;
     currentWindowStartSecond := currentWindowStartSecond ps;
     currentHistogram := currentHistogram ps;
     windowedHistograms := windowedHistograms ps;
     perSecondOps := perSecondOps ps;
     perSecondErrors := perSecondErrors ps;
     lastSecond := lastSecond ps;
     currentSecondOps := currentSecondOps ps;
     currentSecondErrors := currentSecondErrors ps |}.

Definition set_done (x : chan unit) (ps : PerformanceStats) : PerformanceStats :=
  {| TotalOps := TotalOps ps;
     SuccessOps := SuccessOps ps;
     FailedOps := FailedOps ps;
     Histogram := Histogram ps;
     StartTime := StartTime ps;
     latencyChannel := latencyChannel ps;
     errorChannel := errorChannel ps;
     done := x;
     currentWindowStartSecond := currentWindowStartSecond ps;
     currentHistogram := currentHistogram ps;
     windowedHistograms := windowedHistograms ps;
     perSecondOps := perSecondOps ps;
     perSecondErrors := perSecondErrors ps;
     lastSecond := lastSecond ps;
     currentSecondOps := currentSecondOps ps;
     currentSecondErrors := currentSecondErrors ps |}.

Definition set_currentWindowStartSecond (x : Z) (ps : PerformanceStats) : PerformanceStats :=
  {| TotalOps := TotalOps ps;
     SuccessOps := SuccessOps ps;
     FailedOps := FailedOps ps;
     Histogram := Histogram ps;
     StartTime := StartTime ps;
     latencyChannel := latencyChannel ps;
     errorChannel := errorChannel ps;
     done := done ps;
     currentWindowStartSecond := x;
     currentHistogram := currentHistogram ps;
     windowedHistograms := windowedHistograms ps;
     perSecondOps := perSecondOps ps;
     perSecondErrors := perSecondErrors ps;
     lastSecond := lastSecond ps;
     currentSecondOps := currentSecondOps ps;
     currentSecondErrors := currentSecondErrors ps |}.

Definition set_currentHistogram (x : hdrhistogram.Histogram) (ps : PerformanceStats) : PerformanceStats :=
  {| TotalOps := TotalOps ps;
     SuccessOps := SuccessOps ps;
     FailedOps := FailedOps ps;
     Histogram := Histogram ps;
     StartTime := StartTime ps;
     latencyChannel := latencyChannel ps;
     errorChannel := errorChannel ps;
     done := done ps;
     currentWindowStartSecond := currentWindowStartSecond ps;
     currentHistogram := x;
     windowedHistograms := windowedHistograms ps;
     perSecondOps := perSecondOps ps;
     perSecondErrors := perSecondErrors ps;
     lastSecond := lastSecond ps;
     currentSecondOps := currentSecondOps ps;
     currentSecondErrors := currentSecondErrors ps |}.

Definition set_windowedHistograms (x : gmap Z hdrhistogram.Histogram) (ps : PerformanceStats) : PerformanceStats :=
  {| TotalOps := TotalOps ps;
     SuccessOps := SuccessOps ps;
     FailedOps := FailedOps ps;
     Histogram := Histogram ps;
     StartTime := StartTime ps;
     latencyChannel := latencyChannel ps;
     errorChannel := errorChannel ps;
     done := done ps;
     currentWindowStartSecond := currentWindowStartSecond ps;
     currentHistogram := currentHistogram ps;
     windowedHistograms := x;
     perSecondOps := perSecondOps ps;
     perSecondErrors := perSecondErrors ps;
     lastSecond := lastSecond ps;
     currentSecondOps := currentSecondOps ps;
     currentSecondErrors := currentSecondErrors ps |}.

Definition set_perSecondOps (x : gmap Z Z) (ps : PerformanceStats) : PerformanceStats :=
  {| TotalOps := TotalOps ps;
     SuccessOps := SuccessOps ps;
     FailedOps := FailedOps ps;
     Histogram := Histogram ps;
     StartTime := StartTime ps;
     latencyChannel := latencyChannel ps;
     errorChannel := errorChannel ps;
     done := done ps;
     currentWindowStartSecond := currentWindowStartSecond ps;
     currentHistogram := currentHistogram ps;
     windowedHistograms := windowedHistograms ps;
     perSecondOps := x;
     perSecondErrors := perSecondErrors ps;
     lastSecond := lastSecond ps;
     currentSecondOps := currentSecondOps ps;
     currentSecondErrors := currentSecondErrors ps |}.

Definition set_perSecondErrors (x : gmap Z Z) (ps : PerformanceStats) : PerformanceStats :=
  {| TotalOps := TotalOps ps;
     SuccessOps := SuccessOps ps;
     FailedOps := FailedOps ps;
     Histogram := Histogram ps;
     StartTime := StartTime ps;
     latencyChannel := latencyChannel ps;
     errorChannel := errorChannel ps;
     done := done ps;
     currentWindowStartSecond := currentWindowStartSecond ps;
     currentHistogram := currentHistogram ps;
     windowedHistograms := windowedHistograms ps;
     perSecondOps := perSecondOps ps;
     perSecondErrors := x;
     lastSecond := lastSecond ps;
     currentSecondOps := currentSecondOps ps;
     currentSecondErrors := currentSecondErrors ps |}.

Definition set_lastSecond (x : Z) (ps : PerformanceStats) : PerformanceStats :=
  {| TotalOps := TotalOps ps;
     SuccessOps := SuccessOps ps;
     FailedOps := FailedOps ps;
     Histogram := Histogram ps;
     StartTime := StartTime ps;
     latencyChannel := latencyChannel ps;
     errorChannel := errorChannel ps;
     done := done ps;
     currentWindowStartSecond := currentWindowStartSecond ps;
     currentHistogram := currentHistogram ps;
     windowedHistograms := windowedHistograms ps;
     perSecondOps := perSecondOps ps;
     perSecondErrors := perSecondErrors ps;
     lastSecond := x;
     currentSecondOps := currentSecondOps ps;
     currentSecondErrors := currentSecondErrors ps |}.

Definition set_currentSecondOps (x : Z) (ps : PerformanceStats) : PerformanceStats :=
  {| TotalOps := TotalOps ps;
     SuccessOps := SuccessOps ps;
     FailedOps := FailedOps ps;
     Histogram := Histogram ps;
     StartTime := StartTime ps;
     latencyChannel := latencyChannel ps;
     errorChannel := errorChannel ps;
     done := done ps;
     currentWindowStartSecond := currentWindowStartSecond ps;
     currentHistogram := currentHistogram ps;
     windowedHistograms := windowedHistograms ps;
     perSecondOps := perSecondOps ps;
     perSecondErrors := perSecondErrors ps;
     lastSecond := lastSecond ps;
     currentSecondOps := x;
     currentSecondErrors := currentSecondErrors ps |}.

Definition set_currentSecondErrors (x : Z) (ps : PerformanceStats) : PerformanceStats :=
  {| TotalOps := TotalOps ps;
     SuccessOps := SuccessOps ps;
     FailedOps := FailedOps ps;
     Histogram := Histogram ps;
     StartTime := StartTime ps;
     latencyChannel := latencyChannel ps;
     errorChannel := errorChannel ps;
     done := done ps;
     currentWindowStartSecond := currentWindowStartSecond ps;
     currentHistogram := currentHistogram ps;
     windowedHistograms := windowedHistograms ps;
     perSecondOps := perSecondOps ps;
     perSecondErrors := perSecondErrors ps;
     lastSecond := lastSecond ps;
     currentSecondOps := currentSecondOps ps;
     currentSecondErrors := x |}.

(** [NewPerformanceStats()].  The composite literal reads the clock twice:
    [now0] is the value of [StartTime], [now1] the one [lastSecond] is taken
    from.  [currentWindowStartSecond], the counters and the accumulators are
    not mentioned in the literal and start at zero. *)
Definition NewPerformanceStats (now0 now1 : time.Time) : PerformanceStats :=
  let hist := hdrhistogram.New 1 (60 * 1000 * 1000) 3 in
  {| TotalOps := 0;
     SuccessOps := 0;
     FailedOps := 0;
     Histogram := hist;
     StartTime := now0;
     latencyChannel := make_chan 1000000;
     errorChannel := make_chan 100;
     done := make_chan 0;
     currentWindowStartSecond := 0;
     currentHistogram := hdrhistogram.New 1 (60 * 1000 * 1000) 3;
     windowedHistograms := ∅;
     perSecondOps := ∅;
     perSecondErrors := ∅;
     lastSecond := time.Unix now1;
     currentSecondOps := 0;
     currentSecondErrors := 0 |}.

(** *** statsCollector *)

(** The body of the clean-up loop, for one key [sec] of [perSecondOps]. *)
Definition evictSecond (currentSecond : Z) (ps : PerformanceStats) (sec : Z)
  : PerformanceStats :=
  if int64.sub currentSecond sec >? 60 then
    let ps := set_perSecondOps (delete sec (perSecondOps ps)) ps in
    set_perSecondErrors (delete sec (perSecondErrors ps)) ps
  else ps.

(** [for sec := range ps.perSecondOps { ... }].  The loop visits every key the
    map holds when it starts (the body deletes no key but the one it is
    visiting), in an order Go leaves unspecified. *)
Definition evictLoop (currentSecond : Z) (keys : list Z) (ps : PerformanceStats)
  : PerformanceStats :=
  fold_left (evictSecond currentSecond) keys ps.

Definition cleanupOldSeconds (currentSecond : Z) (ps : PerformanceStats)
  : PerformanceStats :=
  evictLoop currentSecond (map fst (map_to_list (perSecondOps ps))) ps.

(** [case event := <-ps.latencyChannel:] with the received [event]. *)
Definition caseLatency (ps : PerformanceStats) (event : LatencyEvent)
  : PerformanceStats :=
  let currentSecond := time.Unix (Timestamp event) in
  let ps :=
    if negb (currentSecond =? lastSecond ps) then
      let ps :=
        if (currentSecondOps ps >? 0) || (currentSecondErrors ps >? 0) then
          let ps :=
            set_perSecondOps
              (<[lastSecond ps := currentSecondOps ps]> (perSecondOps ps)) ps in
          set_perSecondErrors
            (<[lastSecond ps := currentSecondErrors ps]> (perSecondErrors ps)) ps
        else ps in
      let ps := set_currentSecondOps 0 ps in
      let ps := set_currentSecondErrors 0 ps in
      let ps := set_lastSecond currentSecond ps in
      cleanupOldSeconds currentSecond ps
    else ps in
  let ps := set_currentSecondOps (int64.incr (currentSecondOps ps)) ps in
  let ps :=
    set_Histogram
      (hdrhistogram.RecordValue (Histogram ps) (LatencyMicros event)) ps in
  let ps :=
    if int64.sub currentSecond (currentWindowStartSecond ps)
       >=? MetricWindowSizeSeconds then
      let ps :=
        if hdrhistogram.TotalCount (currentHistogram ps) >? 0 then
          set_windowedHistograms
            (<[currentWindowStartSecond ps := currentHistogram ps]>
               (windowedHistograms ps)) ps
        else ps in
      let ps := set_currentWindowStartSecond currentSecond ps in
      set_currentHistogram (hdrhistogram.New 1 (60 * 1000 * 1000) 3) ps
    else ps in
  let ps :=
    set_currentHistogram
      (hdrhistogram.RecordValue (currentHistogram ps) (LatencyMicros event))
      ps in
  let ps := set_SuccessOps (int64.incr (SuccessOps ps)) ps in
  set_TotalOps (int64.incr (TotalOps ps)) ps.

(** [case <-ps.errorChannel:], where [now] is what [time.Now()] returns when
    the case runs. *)
Definition caseError (ps : PerformanceStats) (now : time.Time)
  : PerformanceStats :=
  let currentSecond := time.Unix now in
  let ps :=
    if negb (currentSecond =? lastSecond ps) then
      let ps :=
        if (currentSecondOps ps >? 0) || (currentSecondErrors ps >? 0) then
          let ps :=
            set_perSecondOps
              (<[lastSecond ps := currentSecondOps ps]> (perSecondOps ps)) ps in
          set_perSecondErrors
            (<[lastSecond ps := currentSecondErrors ps]> (perSecondErrors ps)) ps
        else ps in
      let ps := set_currentSecondOps 0 ps in
      let ps := set_currentSecondErrors 0 ps in
      set_lastSecond currentSecond ps
    else ps in
  let ps := set_currentSecondErrors (int64.incr (currentSecondErrors ps)) ps in
  let ps := set_FailedOps (int64.incr (FailedOps ps)) ps in
  set_TotalOps (int64.incr (TotalOps ps)) ps.

(** What one iteration of the collector's [select] received: a latency event,
    an error signal (with the clock value read in that case), or the closing
    of [done]. *)
Inductive Received : Type :=
  | RecvLatency (event : LatencyEvent)
  | RecvError (now : time.Time)
  | RecvDone.

(** [statsCollector], run on the sequence of things its [select] receives:
    the loop processes them in order and returns at the first [RecvDone],
    leaving whatever follows unprocessed. *)
Fixpoint statsCollector (ps : PerformanceStats) (rs : list Received)
  : PerformanceStats :=
  match rs with
  | [] => ps
  | RecvLatency event :: rs => statsCollector (caseLatency ps event) rs
  | RecvError now :: rs => statsCollector (caseError ps now) rs
  | RecvDone :: _ => ps
  end.

(** The number of success events, and of failure events, the collector
    processes when it receives [rs]: those before the first [RecvDone]. *)
Fixpoint successes (rs : list Received) : Z :=
  match rs with
  | [] => 0
  | RecvLatency _ :: rs => 1 + successes rs
  | RecvError _ :: rs => successes rs
  | RecvDone :: _ => 0
  end.

Fixpoint failures (rs : list Received) : Z :=
  match rs with
  | [] => 0
  | RecvLatency _ :: rs => failures rs
  | RecvError _ :: rs => 1 + failures rs
  | RecvDone :: _ => 0
  end.

(** What the block that saves the finished second leaves in each map: the
    accumulators are stored under [lastSecond] when one of them is positive. *)
Definition savedOps (ps : PerformanceStats) : gmap Z Z :=
  if (currentSecondOps ps >? 0) || (currentSecondErrors ps >? 0)
  then <[lastSecond ps := currentSecondOps ps]> (perSecondOps ps)
  else perSecondOps ps.

Definition savedErrors (ps : PerformanceStats) : gmap Z Z :=
  if (currentSecondOps ps >? 0) || (currentSecondErrors ps >? 0)
  then <[lastSecond ps := currentSecondErrors ps]> (perSecondErrors ps)
  else perSecondErrors ps.

(** *** Producers *)

(** [RecordLatency]: a [select] with the send on [latencyChannel] and a
    [default] branch; [now] is the clock value put in the event. *)
Definition RecordLatency (ps : PerformanceStats) (latencyMicros : Z)
    (now : time.Time) : PerformanceStats :=
  match
    try_send (latencyChannel ps)
      {| LatencyMicros := latencyMicros; Timestamp := now |}
  with
  | (c, true) => set_latencyChannel c ps
  | (_, false) => ps
  end.

(** [RecordError]: the same on [errorChannel], with an empty struct. *)
Definition RecordError (ps : PerformanceStats) : PerformanceStats :=
  match try_send (errorChannel ps) tt with
  | (c, true) => set_errorChannel c ps
  | (_, false) => ps
  end.

(** [Close]: [close(ps.done)], which panics ([None]) on a closed channel. *)
Definition Close (ps : PerformanceStats) : option PerformanceStats :=
  if closed (done ps) then None
  else Some (set_done (mkChan (buf (done ps)) (cap (done ps)) true) ps).

(** *** Queries *)

(** [GetQPS], where [elapsed] is the value of
    [time.Since(ps.StartTime).Seconds()]. *)
Definition GetQPS (ps : PerformanceStats) (elapsed : float) : float :=
  if (elapsed =? 0)%float then 0%float
  else (int64.to_float64 (TotalOps ps) / elapsed)%float.

Definition GetStats (ps : PerformanceStats) (elapsed : float)
  : Z * Z * Z * float * Z * Z * Z :=
  let total := TotalOps ps in
  let success := SuccessOps ps in
  let failed := FailedOps ps in
  let qps := GetQPS ps elapsed in
  let '(p50, p95, p99) :=
    if hdrhistogram.TotalCount (Histogram ps) >? 0 then
      (hdrhistogram.ValueAtQuantile (Histogram ps) 50%float,
       hdrhistogram.ValueAtQuantile (Histogram ps) 95%float,
       hdrhistogram.ValueAtQuantile (Histogram ps) 99%float)
    else (0, 0, 0) in
  (total, success, failed, qps, p50, p95, p99).

Definition GetPreviousWindowStats (ps : PerformanceStats)
  : Z * Z * Z * Z * Z :=
  match
    windowedHistograms ps
      !! int64.sub (currentWindowStartSecond ps) MetricWindowSizeSeconds
  with
  | None => (0, 0, 0, 0, 0)
  | Some histToUse =>
      if hdrhistogram.TotalCount histToUse =? 0 then (0, 0, 0, 0, 0)
      else
        (hdrhistogram.TotalCount histToUse,
         hdrhistogram.ValueAtQuantile histToUse 50%float,
         hdrhistogram.ValueAtQuantile histToUse 95%float,
         hdrhistogram.ValueAtQuantile histToUse 99%float,
         hdrhistogram.Max histToUse)
  end.

Definition GetOverallStats (ps : PerformanceStats) (elapsed : float)
  : Z * Z * Z * float :=
  (TotalOps ps, SuccessOps ps, FailedOps ps, GetQPS ps elapsed).

(** [GetOpsLastSecond], [now] being the value of [time.Now()]. *)
Definition GetOpsLastSecond (ps : PerformanceStats) (now : time.Time) : Z :=
  let lastSec := int64.sub (time.Unix now) 1 in
  match perSecondOps ps !! lastSec with
  | Some ops => ops
  | None => 0
  end.

Definition GetErrorsLastSecond (ps : PerformanceStats) (now : time.Time) : Z :=
  let lastSec := int64.sub (time.Unix now) 1 in
  match perSecondErrors ps !! lastSec with
  | Some errors => errors
  | None => 0
  end.

(** [GetLastSecondPercentile].  The test [ps.currentHistogram != nil] of the
    fallback always succeeds (see [PerformanceStats]). *)
Definition GetLastSecondPercentile (ps : PerformanceStats) (now : time.Time)
    (percentile : float) : Z :=
  let lastSec := int64.sub (time.Unix now) 1 in
  let fallback :=
    if hdrhistogram.TotalCount (currentHistogram ps) >? 0 then
      hdrhistogram.ValueAtQuantile (currentHistogram ps) percentile
    else 0 in
  match windowedHistograms ps !! lastSec with
  | Some hist =>
      if hdrhistogram.TotalCount hist >? 0 then
        hdrhistogram.ValueAtQuantile hist percentile
      else fallback
  | None => fallback
  end.

(** *** The aggregator with its goroutine *)

(** The handle together with the state of the goroutine
    [NewPerformanceStats] starts: [collectorRunning] is false once
    [statsCollector] has returned. *)
Record World : Type := mkWorld {
  stats : PerformanceStats;
  collectorRunning : bool
}.

(** [NewPerformanceStats()] seen from outside: the handle, and the collector
    goroutine started. *)
Definition create (now0 now1 : time.Time) : World :=
  {| stats := NewPerformanceStats now0 now1; collectorRunning := true |}.

(** The atomic steps of the system: calls of the producers' and the owner's
    entry points, and iterations of the collector's loop, named by the
    [select] case that runs. *)
Inductive Action : Type :=
  | CallRecordLatency (latencyMicros : Z) (now : time.Time)
  | CallRecordError
  | CallClose
  | CollectLatency
  | CollectError (now : time.Time)
  | CollectDone.

(** One step.  [None] when the step cannot happen in [w]: a [select] case of
    the collector that is not ready (or a collector that has returned), or a
    second [Close], which panics. *)
Definition step (w : World) (a : Action) : option World :=
  let ps := stats w in
  match a with
  | CallRecordLatency latencyMicros now =>
      Some (mkWorld (RecordLatency ps latencyMicros now) (collectorRunning w))
  | CallRecordError =>
      Some (mkWorld (RecordError ps) (collectorRunning w))
  | CallClose =>
      match Close ps with
      | Some ps => Some (mkWorld ps (collectorRunning w))
      | None => None
      end
  | CollectLatency =>
      if collectorRunning w then
        match recv (latencyChannel ps) with
        | Some (event, c) =>
            Some (mkWorld (caseLatency (set_latencyChannel c ps) event) true)
        | None => None
        end
      else None
  | CollectError now =>
      if collectorRunning w then
        match recv (errorChannel ps) with
        | Some (_, c) =>
            Some (mkWorld (caseError (set_errorChannel c ps) now) true)
        | None => None
        end
      else None
  | CollectDone =>
      if collectorRunning w && closed (done ps)
      then Some (mkWorld ps false)
      else None
  end.

Fixpoint steps (w : World) (acts : list Action) : option World :=
  match acts with
  | [] => Some w
  | a :: acts =>
      match step w a with
      | Some w => steps w acts
      | None => None
      end
  end.

(** *** Predicates on the state used in the statements *)

(** The two maps hold the same keys. *)
Definition same_keys (ps : PerformanceStats) : Prop :=
  forall k : Z,
    is_Some (perSecondOps ps !! k) <-> is_Some (perSecondErrors ps !! k).

(** Whether a latency event at second [c] closes the current window. *)
Definition closesWindow (ps : PerformanceStats) (c : Z) : bool :=
  int64.sub c (currentWindowStartSecond ps) >=? MetricWindowSizeSeconds.

(** A received item that leaves the window starting at [w] open: an error
    signal, or a latency event less than [MetricWindowSizeSeconds] seconds
    after [w] whose latency is in the range the histograms are created
    with. *)
Definition staysInWindow (w : Z) (r : Received) : Prop :=
  match r with
  | RecvLatency e =>
      int64.sub (time.Unix (Timestamp e)) w < MetricWindowSizeSeconds /\
      1 <= LatencyMicros e <= 60 * 1000 * 1000
  | RecvError _ => True
  | RecvDone => False
  end.

(** The current histogram has the configured range and holds [n] values. *)
Definition windowHolds (ps : PerformanceStats) (w n : Z) : Prop :=
  currentWindowStartSecond ps = w /\
  hdrhistogram.LowestTrackableValue (currentHistogram ps) = 1 /\
  hdrhistogram.HighestTrackableValue (currentHistogram ps) = 60 * 1000 * 1000 /\
  hdrhistogram.TotalCount (currentHistogram ps) = n.

(** Each mailbox has the capacity it was made with and holds no more. *)
Definition mailboxesBounded (ps : PerformanceStats) : Prop :=
  (cap (latencyChannel ps) = 1000000 /\
   chan_len (latencyChannel ps) <= 1000000) /\
  (cap (errorChannel ps) = 100 /\
   chan_len (errorChannel ps) <= 100).

(** No key of the operations map is more than 60 seconds older than
    [lastSecond]. *)
Definition rollingWindow (ps : PerformanceStats) : Prop :=
  forall k : Z,
    is_Some (perSecondOps ps !! k) -> int64.sub (lastSecond ps) k <= 60.

(** Two states with the same aggregate: they agree on every field but the
    three channels. *)
Definition sameAggregate (ps1 ps2 : PerformanceStats) : Prop :=
  TotalOps ps1 = TotalOps ps2 /\
  SuccessOps ps1 = SuccessOps ps2 /\
  FailedOps ps1 = FailedOps ps2 /\
  Histogram ps1 = Histogram ps2 /\
  StartTime ps1 = StartTime ps2 /\
  currentWindowStartSecond ps1 = currentWindowStartSecond ps2 /\
  currentHistogram ps1 = currentHistogram ps2 /\
  windowedHistograms ps1 = windowedHistograms ps2 /\
  perSecondOps ps1 = perSecondOps ps2 /\
  perSecondErrors ps1 = perSecondErrors ps2 /\
  lastSecond ps1 = lastSecond ps2 /\
  currentSecondOps ps1 = currentSecondOps ps2 /\
  currentSecondErrors ps1 = currentSecondErrors ps2.

(** The number of latency events, and of error signals, the collector takes
    from the mailboxes in a sequence of steps. *)
Fixpoint collectedLatencies (acts : list Action) : Z :=
  match acts with
  | [] => 0
  | CollectLatency :: acts => 1 + collectedLatencies acts
  | _ :: acts => collectedLatencies acts
  end.

Fixpoint collectedErrors (acts : list Action) : Z :=
  match acts with
  | [] => 0
  | CollectError _ :: acts => 1 + collectedErrors acts
  | _ :: acts => collectedErrors acts
  end.

(** Every archived histogram holds at least one value. *)
Definition archiveNonEmpty (ps : PerformanceStats) : Prop :=
  forall (k : Z) (h : hdrhistogram.Histogram),
    windowedHistograms ps !! k = Some h -> 0 < hdrhistogram.TotalCount h.

(** The latencies of the success events the collector processes when it
    receives [rs], in order. *)
Fixpoint latencies (rs : list Received) : list Z :=
  match rs with
  | [] => []
  | RecvLatency e :: rs => LatencyMicros e :: latencies rs
  | RecvError _ :: rs => latencies rs
  | RecvDone :: _ => []
  end.

(** A received item stamped with second [s]. *)
Definition inSecond (s : Z) (r : Received) : Prop :=
  match r with
  | RecvLatency e => time.Unix (Timestamp e) = s
  | RecvError now => time.Unix now = s
  | RecvDone => False
  end.

(** A received item that ends second [s]: an error signal in another second,
    or a latency event in another second that is at most 60 seconds later in
    the program's arithmetic (so that its clean-up keeps [s]). *)
Definition endsSecond (s : Z) (r : Received) : Prop :=
  match r with
  | RecvLatency e =>
      time.Unix (Timestamp e) <> s /\
      int64.sub (time.Unix (Timestamp e)) s <= 60
  | RecvError now => time.Unix now <> s
  | RecvDone => False
  end.

(** One iteration of the loop on a received item other than [RecvDone]. *)
Definition iteration (ps : PerformanceStats) (r : Received)
  : PerformanceStats :=
  match r with
  | RecvLatency e => caseLatency ps e
  | RecvError now => caseError ps now
  | RecvDone => ps
  end.

(** The numbers of calls of [RecordLatency], [RecordError] and [Close] in a
    sequence of steps. *)
Fixpoint calledLatencies (acts : list Action) : Z :=
  match acts with
  | [] => 0
  | CallRecordLatency _ _ :: acts => 1 + calledLatencies acts
  | _ :: acts => calledLatencies acts
  end.

Fixpoint calledErrors (acts : list Action) : Z :=
  match acts with
  | [] => 0
  | CallRecordError :: acts => 1 + calledErrors acts
  | _ :: acts => calledErrors acts
  end.

Fixpoint calledCloses (acts : list Action) : Z :=
  match acts with
  | [] => 0
  | CallClose :: acts => 1 + calledCloses acts
  | _ :: acts => calledCloses acts
  end.

End Stats.

(** ** A reference histogram *)

Module exact.

(** Modelled from the spec: a Histogram Capability that keeps every recorded
    sample, used to run the aggregator on concrete inputs.  It stands for
    hdrhistogram-go (not part of the repository) at full precision: a value
    outside the trackable range is refused, a quantile is the sample at that
    rank, the maximum is the largest sample. *)
Record Hist : Type := mkHist {
  lowest : Z;
  highest : Z;
  digits : Z;
  samples : list Z
}.

Definition new (lo hi sig : Z) : Hist := mkHist lo hi sig [].

Definition record (h : Hist) (v : Z) : Hist :=
  if (lowest h <=? v) && (v <=? highest h)
  then mkHist (lowest h) (highest h) (digits h) (v :: samples h)
  else h.

Definition count (h : Hist) : Z := Z.of_nat (length (samples h)).

Definition maximum (h : Hist) : Z := fold_right Z.max 0 (samples h).

(** [int64(f)] for a float [f]: truncation towards zero. *)
Definition truncate (f : float) : Z :=
  match Prim2SF f with
  | S754_finite s m e =>
      let z := if 0 <=? e then Z.pos m * 2 ^ e else Z.pos m / 2 ^ (- e) in
      if s then - z else z
  | _ => 0
  end.

(** The sample at the rank [q/100 * count + 0.5], counted from the smallest;
    0 for an empty histogram. *)
Definition quantile (h : Hist) (q : float) : Z :=
  let q := if (100 <? q)%float then 100%float else q in
  let rank :=
    truncate (q / 100 * int64.to_float64 (count h) + 0.5)%float in
  nth (Z.to_nat (Z.max rank 1 - 1)) (merge_sort Z.le (samples h)) 0.

Definition capability : hdrhistogram.Capability.
Proof.
  refine
    {| hdrhistogram.Histogram := Hist;
       hdrhistogram.New := new;
       hdrhistogram.RecordValue := record;
       hdrhistogram.TotalCount := count;
       hdrhistogram.ValueAtQuantile := quantile;
       hdrhistogram.Max := maximum;
       hdrhistogram.LowestTrackableValue := lowest;
       hdrhistogram.HighestTrackableValue := highest |}.
  - reflexivity.
  - reflexivity.
  - reflexivity.
  - intros h v. unfold record. destruct (_ && _); reflexivity.
  - intros h v. unfold record. destruct (_ && _); reflexivity.
  - intros h v [Hlo Hhi] _. unfold record, count.
    apply Z.leb_le in Hlo. apply Z.leb_le in Hhi. rewrite Hlo, Hhi.
    cbn [andb samples length]. lia.
Defined.

End exact.

(** ** Concrete inputs *)

(** The aggregator on the reference histogram, at explicit clock values. *)
Definition atSecond (s : Z) : time.Time := time.mkTime s 0.

Definition newAt (s : Z) : PerformanceStats (Hdr := exact.capability) :=
  NewPerformanceStats (atSecond s) (atSecond s).

(** One success per second from second 0 to second 4, and the state after a
    further success at second 5. *)
Definition fiveSuccesses : PerformanceStats (Hdr := exact.capability) :=
  statsCollector (newAt 0)
    [RecvLatency (mkLatencyEvent 100 (atSecond 0));
     RecvLatency (mkLatencyEvent 200 (atSecond 1));
     RecvLatency (mkLatencyEvent 300 (atSecond 2));
     RecvLatency (mkLatencyEvent 400 (atSecond 3));
     RecvLatency (mkLatencyEvent 500 (atSecond 4))].

Definition sixSuccesses : PerformanceStats (Hdr := exact.capability) :=
  caseLatency fiveSuccesses (mkLatencyEvent 600 (atSecond 5)).

(** A handle on which [RecordError] was called 100 times while the collector
    received nothing. *)
Definition fullErrorMailbox : PerformanceStats (Hdr := exact.capability) :=
  Nat.iter 100 RecordError (newAt 0).

(** A state whose per-second maps hold second 0 while [lastSecond] is 100:
    created at second 0, a latency event at second 0, an error signal at
    second 100. *)
Definition staleSecond : PerformanceStats (Hdr := exact.capability) :=
  statsCollector (newAt 0)
    [RecvLatency (mkLatencyEvent 100 (atSecond 0)); RecvError (atSecond 100)].

(** Two successes and a failure in second 10. *)
Definition secondTen : list Received :=
  [RecvLatency (mkLatencyEvent 100 (atSecond 10)); RecvError (atSecond 10);
   RecvLatency (mkLatencyEvent 300 (atSecond 10))].

(** A run of the system: two events queued, both taken by the collector, a
    shutdown, and a call after it. *)
Definition shortRun : list Action :=
  [CallRecordLatency 100 (atSecond 0); CallRecordError; CollectLatency;
   CollectError (atSecond 1); CallClose; CollectDone; CallRecordError].

(** The state after [acts] from [w] ([w] itself if a step cannot happen). *)
Definition after (w : World (Hdr := exact.capability)) (acts : list Action)
  : World (Hdr := exact.capability) :=
  match steps w acts with
  | Some w' => w'
  | None => w
  end.

(** ** Tactics *)

(** Proof steps shared by the lemmas on [caseLatency] and [caseError]. *)
Ltac case_ifs :=
  repeat match goal with
         | |- context [if ?b then _ else _] => destruct b
         end.

Ltac case_ifs_eq :=
  repeat match goal with
         | |- context [if ?b then _ else _] => destruct b eqn:?
         end.

Ltac use_eqs :=
  repeat match goal with
         | H : ?b = _ |- context [?b] => rewrite H
         end.

Create Rewrite HintDb stats_frame.

(** Projections of field assignments. *)
Ltac fields :=
  cbn [
    TotalOps SuccessOps FailedOps Histogram StartTime latencyChannel
    errorChannel done currentWindowStartSecond currentHistogram
    windowedHistograms perSecondOps perSecondErrors lastSecond
    currentSecondOps currentSecondErrors set_TotalOps set_SuccessOps
    set_FailedOps set_Histogram set_latencyChannel set_errorChannel set_done
    set_currentWindowStartSecond set_currentHistogram set_windowedHistograms
    set_perSecondOps set_perSecondErrors set_lastSecond set_currentSecondOps
    set_currentSecondErrors
  ].

Ltac frame := fields; autorewrite with stats_frame; fields; try reflexivity.

(** * Properties *)

(** ** int64 *)

Lemma int64_wrap_in_range (z : Z) : int64.in_range z -> int64.wrap z = z.
Proof.
  unfold int64.in_range, int64.MinInt64, int64.MaxInt64, int64.wrap,
    int64.modulus.
  intros Hz. rewrite Z.mod_small; lia.
Qed.

(** A count that fits, added to a counter that starts at zero. *)
Lemma int64_wrap_count (z : Z) :
  0 <= z <= int64.MaxInt64 -> int64.wrap (0 + z) = z.
Proof.
  intros Hz. rewrite Z.add_0_l. apply int64_wrap_in_range.
  unfold int64.in_range, int64.MinInt64, int64.MaxInt64 in *. lia.
Qed.

Lemma int64_wrap_add_l (a b : Z) :
  int64.wrap (int64.wrap a + b) = int64.wrap (a + b).
Proof.
  unfold int64.wrap. f_equal.
  replace ((a + 2 ^ 63) mod int64.modulus - 2 ^ 63 + b + 2 ^ 63)
    with ((a + 2 ^ 63) mod int64.modulus + b) by lia.
  rewrite Zplus_mod_idemp_l. f_equal. lia.
Qed.

Lemma int64_wrap_add_r (a b : Z) :
  int64.wrap (a + int64.wrap b) = int64.wrap (a + b).
Proof. rewrite (Z.add_comm a), int64_wrap_add_l. f_equal. lia. Qed.

Section Properties.

Context `{Hdr : hdrhistogram.Capability}.

Implicit Types (ps : PerformanceStats) (rs : list Received).

(** ** The clean-up loop *)

(** The loop writes the two per-second maps and nothing else. *)
Lemma evictLoop_shape (c : Z) (keys : list Z) ps :
  evictLoop c keys ps =
  set_perSecondErrors (perSecondErrors (evictLoop c keys ps))
    (set_perSecondOps (perSecondOps (evictLoop c keys ps)) ps).
Proof.
  revert ps. induction keys as [|k keys IH]; intros ps.
  - destruct ps; reflexivity.
  - unfold evictLoop in *. cbn [fold_left]. rewrite IH at 1.
    unfold evictSecond. destruct (_ >? 60); destruct ps; reflexivity.
Qed.

Lemma evictLoop_perSecondOps (c : Z) (keys : list Z) ps (k : Z) :
  perSecondOps (evictLoop c keys ps) !! k =
  if bool_decide (k ∈ keys) && (int64.sub c k >? 60) then None
  else perSecondOps ps !! k.
Proof.
  revert ps. induction keys as [|k0 keys IH]; intros ps.
  - reflexivity.
  - unfold evictLoop in *. cbn [fold_left]. rewrite IH. unfold evictSecond.
    destruct (decide (k = k0)) as [->|Hne].
    + rewrite (bool_decide_eq_true_2 (k0 ∈ k0 :: keys))
        by (apply elem_of_cons; left; reflexivity).
      destruct (int64.sub c k0 >? 60) eqn:Hold; cbn [perSecondOps set_perSecondOps set_perSecondErrors andb].
      * rewrite lookup_delete_eq. rewrite andb_true_r.
        destruct (bool_decide _); reflexivity.
      * rewrite andb_false_r. reflexivity.
    + assert (bool_decide (k ∈ k0 :: keys) = bool_decide (k ∈ keys)) as ->.
      { apply bool_decide_ext. rewrite elem_of_cons. tauto. }
      destruct (int64.sub c k0 >? 60); cbn [perSecondOps set_perSecondOps set_perSecondErrors].
      * rewrite lookup_delete_ne by congruence. reflexivity.
      * reflexivity.
Qed.

Lemma evictLoop_perSecondErrors (c : Z) (keys : list Z) ps (k : Z) :
  perSecondErrors (evictLoop c keys ps) !! k =
  if bool_decide (k ∈ keys) && (int64.sub c k >? 60) then None
  else perSecondErrors ps !! k.
Proof.
  revert ps. induction keys as [|k0 keys IH]; intros ps.
  - reflexivity.
  - unfold evictLoop in *. cbn [fold_left]. rewrite IH. unfold evictSecond.
    destruct (decide (k = k0)) as [->|Hne].
    + rewrite (bool_decide_eq_true_2 (k0 ∈ k0 :: keys))
        by (apply elem_of_cons; left; reflexivity).
      destruct (int64.sub c k0 >? 60) eqn:Hold; cbn [perSecondErrors perSecondOps set_perSecondOps set_perSecondErrors andb].
      * rewrite lookup_delete_eq. rewrite andb_true_r.
        destruct (bool_decide _); reflexivity.
      * rewrite andb_false_r. reflexivity.
    + assert (bool_decide (k ∈ k0 :: keys) = bool_decide (k ∈ keys)) as ->.
      { apply bool_decide_ext. rewrite elem_of_cons. tauto. }
      destruct (int64.sub c k0 >? 60); cbn [perSecondErrors perSecondOps set_perSecondOps set_perSecondErrors].
      * rewrite lookup_delete_ne by congruence. reflexivity.
      * reflexivity.
Qed.

Lemma elem_of_keys (m : gmap Z Z) (k : Z) :
  k ∈ map fst (map_to_list m) <-> is_Some (m !! k).
Proof.
  rewrite list_elem_of_In, in_map_iff. split.
  - intros [[k' v] [<- Hin]]. exists v.
    apply elem_of_map_to_list, list_elem_of_In, Hin.
  - intros [v Hv]. exists (k, v). split; [reflexivity|].
    apply list_elem_of_In, elem_of_map_to_list, Hv.
Qed.

(** What the clean-up leaves in the operations map: the entries that are at
    most 60 seconds old. *)
Lemma cleanupOldSeconds_perSecondOps (c : Z) ps (k : Z) :
  perSecondOps (cleanupOldSeconds c ps) !! k =
  if int64.sub c k >? 60 then None else perSecondOps ps !! k.
Proof.
  unfold cleanupOldSeconds. rewrite evictLoop_perSecondOps.
  destruct (int64.sub c k >? 60).
  - rewrite andb_true_r. case_bool_decide as Hin; [reflexivity|].
    rewrite elem_of_keys in Hin. apply eq_None_not_Some, Hin.
  - rewrite andb_false_r. reflexivity.
Qed.

(** What it leaves in the errors map: an entry goes when it is more than 60
    seconds old and the operations map had its key. *)
Lemma cleanupOldSeconds_perSecondErrors (c : Z) ps (k : Z) :
  perSecondErrors (cleanupOldSeconds c ps) !! k =
  if bool_decide (is_Some (perSecondOps ps !! k)) && (int64.sub c k >? 60)
  then None else perSecondErrors ps !! k.
Proof.
  unfold cleanupOldSeconds. rewrite evictLoop_perSecondErrors.
  rewrite (bool_decide_ext _ _ (elem_of_keys (perSecondOps ps) k)).
  reflexivity.
Qed.

Lemma cleanupOldSeconds_shape (c : Z) ps :
  cleanupOldSeconds c ps =
  set_perSecondErrors (perSecondErrors (cleanupOldSeconds c ps))
    (set_perSecondOps (perSecondOps (cleanupOldSeconds c ps)) ps).
Proof. apply evictLoop_shape. Qed.

(** ** Fields the clean-up leaves alone *)

Lemma cleanupOldSeconds_TotalOps (c : Z) ps :
  TotalOps (cleanupOldSeconds c ps) = TotalOps ps.
Proof. rewrite cleanupOldSeconds_shape. reflexivity. Qed.

Lemma cleanupOldSeconds_SuccessOps (c : Z) ps :
  SuccessOps (cleanupOldSeconds c ps) = SuccessOps ps.
Proof. rewrite cleanupOldSeconds_shape. reflexivity. Qed.

Lemma cleanupOldSeconds_FailedOps (c : Z) ps :
  FailedOps (cleanupOldSeconds c ps) = FailedOps ps.
Proof. rewrite cleanupOldSeconds_shape. reflexivity. Qed.

Lemma cleanupOldSeconds_Histogram (c : Z) ps :
  Histogram (cleanupOldSeconds c ps) = Histogram ps.
Proof. rewrite cleanupOldSeconds_shape. reflexivity. Qed.

Lemma cleanupOldSeconds_StartTime (c : Z) ps :
  StartTime (cleanupOldSeconds c ps) = StartTime ps.
Proof. rewrite cleanupOldSeconds_shape. reflexivity. Qed.

Lemma cleanupOldSeconds_latencyChannel (c : Z) ps :
  latencyChannel (cleanupOldSeconds c ps) = latencyChannel ps.
Proof. rewrite cleanupOldSeconds_shape. reflexivity. Qed.

Lemma cleanupOldSeconds_errorChannel (c : Z) ps :
  errorChannel (cleanupOldSeconds c ps) = errorChannel ps.
Proof. rewrite cleanupOldSeconds_shape. reflexivity. Qed.

Lemma cleanupOldSeconds_done (c : Z) ps :
  done (cleanupOldSeconds c ps) = done ps.
Proof. rewrite cleanupOldSeconds_shape. reflexivity. Qed.

Lemma cleanupOldSeconds_currentWindowStartSecond (c : Z) ps :
  currentWindowStartSecond (cleanupOldSeconds c ps) = currentWindowStartSecond ps.
Proof. rewrite cleanupOldSeconds_shape. reflexivity. Qed.

Lemma cleanupOldSeconds_currentHistogram (c : Z) ps :
  currentHistogram (cleanupOldSeconds c ps) = currentHistogram ps.
Proof. rewrite cleanupOldSeconds_shape. reflexivity. Qed.

Lemma cleanupOldSeconds_windowedHistograms (c : Z) ps :
  windowedHistograms (cleanupOldSeconds c ps) = windowedHistograms ps.
Proof. rewrite cleanupOldSeconds_shape. reflexivity. Qed.

Lemma cleanupOldSeconds_lastSecond (c : Z) ps :
  lastSecond (cleanupOldSeconds c ps) = lastSecond ps.
Proof. rewrite cleanupOldSeconds_shape. reflexivity. Qed.

Lemma cleanupOldSeconds_currentSecondOps (c : Z) ps :
  currentSecondOps (cleanupOldSeconds c ps) = currentSecondOps ps.
Proof. rewrite cleanupOldSeconds_shape. reflexivity. Qed.

Lemma cleanupOldSeconds_currentSecondErrors (c : Z) ps :
  currentSecondErrors (cleanupOldSeconds c ps) = currentSecondErrors ps.
Proof. rewrite cleanupOldSeconds_shape. reflexivity. Qed.

#[local] Hint Rewrite
  cleanupOldSeconds_TotalOps
  cleanupOldSeconds_SuccessOps
  cleanupOldSeconds_FailedOps
  cleanupOldSeconds_Histogram
  cleanupOldSeconds_StartTime
  cleanupOldSeconds_latencyChannel
  cleanupOldSeconds_errorChannel
  cleanupOldSeconds_done
  cleanupOldSeconds_currentWindowStartSecond
  cleanupOldSeconds_currentHistogram
  cleanupOldSeconds_windowedHistograms
  cleanupOldSeconds_lastSecond
  cleanupOldSeconds_currentSecondOps
  cleanupOldSeconds_currentSecondErrors
  : stats_frame.

(** ** The counters *)

Lemma caseLatency_TotalOps ps e :
  TotalOps (caseLatency ps e) = int64.incr (TotalOps ps).
Proof. unfold caseLatency. cbv zeta. case_ifs; frame. Qed.

Lemma caseLatency_SuccessOps ps e :
  SuccessOps (caseLatency ps e) = int64.incr (SuccessOps ps).
Proof. unfold caseLatency. cbv zeta. case_ifs; frame. Qed.

Lemma caseLatency_FailedOps ps e :
  FailedOps (caseLatency ps e) = FailedOps ps.
Proof. unfold caseLatency. cbv zeta. case_ifs; frame. Qed.

Lemma caseError_TotalOps ps now :
  TotalOps (caseError ps now) = int64.incr (TotalOps ps).
Proof. unfold caseError. cbv zeta. case_ifs; frame. Qed.

Lemma caseError_SuccessOps ps now :
  SuccessOps (caseError ps now) = SuccessOps ps.
Proof. unfold caseError. cbv zeta. case_ifs; frame. Qed.

Lemma caseError_FailedOps ps now :
  FailedOps (caseError ps now) = int64.incr (FailedOps ps).
Proof. unfold caseError. cbv zeta. case_ifs; frame. Qed.

(** A property of the state that both cases of the loop preserve holds when
    the collector has processed any sequence. *)
Lemma statsCollector_invariant (P : PerformanceStats -> Prop) :
  (forall ps e, P ps -> P (caseLatency ps e)) ->
  (forall ps now, P ps -> P (caseError ps now)) ->
  forall rs ps, P ps -> P (statsCollector ps rs).
Proof.
  intros Hlat Herr rs.
  induction rs as [|[e|now|] rs IH]; intros ps HP; cbn [statsCollector].
  - exact HP.
  - apply IH, Hlat, HP.
  - apply IH, Herr, HP.
  - exact HP.
Qed.

Lemma successes_nonneg rs : 0 <= successes rs.
Proof. induction rs as [|[e|now|] rs IH]; cbn [successes]; lia. Qed.

Lemma failures_nonneg rs : 0 <= failures rs.
Proof. induction rs as [|[e|now|] rs IH]; cbn [failures]; lia. Qed.

(** Each counter, as an [int64], is its initial value plus the number of
    increments. *)
Lemma statsCollector_SuccessOps rs : forall ps a,
  SuccessOps ps = int64.wrap a ->
  SuccessOps (statsCollector ps rs) = int64.wrap (a + successes rs).
Proof.
  induction rs as [|[e|now|] rs IH]; intros ps a Ha;
    cbn [statsCollector successes].
  - rewrite Z.add_0_r. exact Ha.
  - rewrite (IH _ (a + 1)); [f_equal; lia|].
    rewrite caseLatency_SuccessOps, Ha. unfold int64.incr.
    apply int64_wrap_add_l.
  - apply IH. rewrite caseError_SuccessOps. exact Ha.
  - rewrite Z.add_0_r. exact Ha.
Qed.

Lemma statsCollector_FailedOps rs : forall ps a,
  FailedOps ps = int64.wrap a ->
  FailedOps (statsCollector ps rs) = int64.wrap (a + failures rs).
Proof.
  induction rs as [|[e|now|] rs IH]; intros ps a Ha;
    cbn [statsCollector failures].
  - rewrite Z.add_0_r. exact Ha.
  - apply IH. rewrite caseLatency_FailedOps. exact Ha.
  - rewrite (IH _ (a + 1)); [f_equal; lia|].
    rewrite caseError_FailedOps, Ha. unfold int64.incr.
    apply int64_wrap_add_l.
  - rewrite Z.add_0_r. exact Ha.
Qed.

Lemma statsCollector_TotalOps rs : forall ps a,
  TotalOps ps = int64.wrap a ->
  TotalOps (statsCollector ps rs) =
  int64.wrap (a + (successes rs + failures rs)).
Proof.
  induction rs as [|[e|now|] rs IH]; intros ps a Ha;
    cbn [statsCollector successes failures].
  - rewrite Z.add_0_r. exact Ha.
  - rewrite (IH _ (a + 1)); [f_equal; lia|].
    rewrite caseLatency_TotalOps, Ha. unfold int64.incr.
    apply int64_wrap_add_l.
  - rewrite (IH _ (a + 1)); [f_equal; lia|].
    rewrite caseError_TotalOps, Ha. unfold int64.incr.
    apply int64_wrap_add_l.
  - rewrite Z.add_0_r. exact Ha.
Qed.

(** C1. When the collector, started on a new aggregator, has drained a
    sequence holding N success events and M failure events, [TotalOps] is
    N + M, [SuccessOps] is N and [FailedOps] is M.  The counters are [int64]:
    N + M is taken to fit, which a sequence of fewer than 2^63 events
    does. *)
Theorem drained_counters (now0 now1 : time.Time) rs :
  successes rs + failures rs <= int64.MaxInt64 ->
  TotalOps (statsCollector (NewPerformanceStats now0 now1) rs)
    = successes rs + failures rs /\
  SuccessOps (statsCollector (NewPerformanceStats now0 now1) rs)
    = successes rs /\
  FailedOps (statsCollector (NewPerformanceStats now0 now1) rs)
    = failures rs.
Proof.
  intros Hfit.
  pose proof (successes_nonneg rs) as HN.
  pose proof (failures_nonneg rs) as HM.
  rewrite (statsCollector_TotalOps rs _ 0),
    (statsCollector_SuccessOps rs _ 0),
    (statsCollector_FailedOps rs _ 0) by reflexivity.
  rewrite !int64_wrap_count by lia.
  repeat split.
Qed.

(** The invariant of the counters, with the sum the program computes. *)
Lemma statsCollector_counters_sum (now0 now1 : time.Time) rs :
  TotalOps (statsCollector (NewPerformanceStats now0 now1) rs) =
  int64.add
    (SuccessOps (statsCollector (NewPerformanceStats now0 now1) rs))
    (FailedOps (statsCollector (NewPerformanceStats now0 now1) rs)).
Proof.
  apply (statsCollector_invariant
           (fun ps => TotalOps ps = int64.add (SuccessOps ps) (FailedOps ps))).
  - intros ps e Hinv.
    rewrite caseLatency_TotalOps, caseLatency_SuccessOps,
      caseLatency_FailedOps, Hinv.
    unfold int64.add, int64.incr.
    rewrite !int64_wrap_add_l. f_equal. lia.
  - intros ps now Hinv.
    rewrite caseError_TotalOps, caseError_SuccessOps,
      caseError_FailedOps, Hinv.
    unfold int64.add, int64.incr.
    rewrite int64_wrap_add_l, int64_wrap_add_r. f_equal. lia.
  - reflexivity.
Qed.

(** C3. In every state the collector reaches from a new aggregator, that is
    after each event it has finished processing, [TotalOps] equals
    [SuccessOps + FailedOps]: with the program's [int64] addition in every
    case, and as integers as long as the number of events processed fits an
    [int64]. *)
Theorem counters_sum_invariant (now0 now1 : time.Time) rs :
  TotalOps (statsCollector (NewPerformanceStats now0 now1) rs) =
  int64.add
    (SuccessOps (statsCollector (NewPerformanceStats now0 now1) rs))
    (FailedOps (statsCollector (NewPerformanceStats now0 now1) rs)) /\
  (successes rs + failures rs <= int64.MaxInt64 ->
   TotalOps (statsCollector (NewPerformanceStats now0 now1) rs) =
   SuccessOps (statsCollector (NewPerformanceStats now0 now1) rs)
   + FailedOps (statsCollector (NewPerformanceStats now0 now1) rs)).
Proof.
  split.
  - apply statsCollector_counters_sum.
  - intros Hfit.
    pose proof (successes_nonneg rs) as HN.
    pose proof (failures_nonneg rs) as HM.
    rewrite (statsCollector_TotalOps rs _ 0),
      (statsCollector_SuccessOps rs _ 0),
      (statsCollector_FailedOps rs _ 0) by reflexivity.
    rewrite !int64_wrap_count by lia.
    reflexivity.
Qed.

(** ** The per-second maps *)

Lemma savedOps_savedErrors_keys ps (k : Z) :
  (is_Some (perSecondOps ps !! k) <-> is_Some (perSecondErrors ps !! k)) ->
  (is_Some (savedOps ps !! k) <-> is_Some (savedErrors ps !! k)).
Proof.
  intros Hkeys. unfold savedOps, savedErrors.
  destruct (_ || _); [|exact Hkeys].
  destruct (decide (lastSecond ps = k)) as [->|Hne].
  - rewrite !lookup_insert_eq. split; eauto.
  - rewrite !lookup_insert_ne by exact Hne. exact Hkeys.
Qed.

Lemma caseLatency_perSecondOps ps e (k : Z) :
  perSecondOps (caseLatency ps e) !! k =
  if negb (time.Unix (Timestamp e) =? lastSecond ps) then
    if int64.sub (time.Unix (Timestamp e)) k >? 60 then None
    else savedOps ps !! k
  else perSecondOps ps !! k.
Proof.
  unfold caseLatency, savedOps. cbv zeta.
  destruct (negb _); [destruct (_ || _)|]; case_ifs_eq; fields;
    rewrite ?cleanupOldSeconds_perSecondOps; fields; use_eqs; reflexivity.
Qed.

Lemma caseLatency_perSecondErrors ps e (k : Z) :
  perSecondErrors (caseLatency ps e) !! k =
  if negb (time.Unix (Timestamp e) =? lastSecond ps) then
    if bool_decide (is_Some (savedOps ps !! k))
       && (int64.sub (time.Unix (Timestamp e)) k >? 60)
    then None
    else savedErrors ps !! k
  else perSecondErrors ps !! k.
Proof.
  unfold caseLatency, savedOps, savedErrors. cbv zeta.
  destruct (negb _); [destruct (_ || _)|]; case_ifs_eq; fields;
    rewrite ?cleanupOldSeconds_perSecondErrors; fields; use_eqs;
    reflexivity.
Qed.

Lemma caseError_perSecondOps ps now :
  perSecondOps (caseError ps now) =
  if negb (time.Unix now =? lastSecond ps) then savedOps ps
  else perSecondOps ps.
Proof.
  unfold caseError, savedOps. cbv zeta. case_ifs; fields; reflexivity.
Qed.

Lemma caseError_perSecondErrors ps now :
  perSecondErrors (caseError ps now) =
  if negb (time.Unix now =? lastSecond ps) then savedErrors ps
  else perSecondErrors ps.
Proof.
  unfold caseError, savedErrors. cbv zeta. case_ifs; fields; reflexivity.
Qed.

Lemma caseLatency_lastSecond ps e :
  lastSecond (caseLatency ps e) = time.Unix (Timestamp e).
Proof.
  unfold caseLatency. cbv zeta.
  destruct (negb _) eqn:Hsec; case_ifs; frame;
    apply negb_false_iff, Z.eqb_eq in Hsec; symmetry; exact Hsec.
Qed.

Lemma caseError_lastSecond ps now :
  lastSecond (caseError ps now) = time.Unix now.
Proof.
  unfold caseError. cbv zeta.
  destruct (negb _) eqn:Hsec; case_ifs; frame;
    apply negb_false_iff, Z.eqb_eq in Hsec; symmetry; exact Hsec.
Qed.

Lemma caseLatency_same_keys ps e : same_keys ps -> same_keys (caseLatency ps e).
Proof.
  intros Hkeys k.
  rewrite caseLatency_perSecondOps, caseLatency_perSecondErrors.
  destruct (negb _); [|apply Hkeys].
  pose proof (savedOps_savedErrors_keys ps k (Hkeys k)) as Hsaved.
  destruct (_ >? 60).
  - rewrite andb_true_r. case_bool_decide as Hin; [reflexivity|].
    rewrite <- Hsaved. split; [intros []%is_Some_None|]. intros H; tauto.
  - rewrite andb_false_r. exact Hsaved.
Qed.

Lemma caseError_same_keys ps now : same_keys ps -> same_keys (caseError ps now).
Proof.
  intros Hkeys k.
  rewrite caseError_perSecondOps, caseError_perSecondErrors.
  destruct (negb _); [|apply Hkeys].
  apply savedOps_savedErrors_keys, Hkeys.
Qed.

Lemma statsCollector_same_keys (now0 now1 : time.Time) rs :
  same_keys (statsCollector (NewPerformanceStats now0 now1) rs).
Proof.
  apply (statsCollector_invariant same_keys).
  - apply caseLatency_same_keys.
  - apply caseError_same_keys.
  - intros k. cbn [NewPerformanceStats perSecondOps perSecondErrors].
    rewrite !lookup_empty. reflexivity.
Qed.

(** C10. After every event the collector processes, starting from a new
    aggregator, the per-second operations map and the per-second errors map
    have the same set of keys. *)
Theorem perSecond_maps_same_keys (now0 now1 : time.Time) rs :
  dom (perSecondOps (statsCollector (NewPerformanceStats now0 now1) rs)) =
  dom (perSecondErrors (statsCollector (NewPerformanceStats now0 now1) rs)).
Proof.
  apply set_eq. intros k. rewrite !elem_of_dom.
  apply statsCollector_same_keys.
Qed.

(** ** The monitoring window *)

Lemma caseError_currentWindowStartSecond ps now :
  currentWindowStartSecond (caseError ps now) = currentWindowStartSecond ps.
Proof. unfold caseError. cbv zeta. case_ifs; frame. Qed.

Lemma caseError_currentHistogram ps now :
  currentHistogram (caseError ps now) = currentHistogram ps.
Proof. unfold caseError. cbv zeta. case_ifs; frame. Qed.

Lemma caseError_windowedHistograms ps now :
  windowedHistograms (caseError ps now) = windowedHistograms ps.
Proof. unfold caseError. cbv zeta. case_ifs; frame. Qed.

Lemma caseLatency_currentWindowStartSecond ps e :
  currentWindowStartSecond (caseLatency ps e) =
  if closesWindow ps (time.Unix (Timestamp e))
  then time.Unix (Timestamp e)
  else currentWindowStartSecond ps.
Proof.
  unfold caseLatency, closesWindow. cbv zeta.
  destruct (negb _); [destruct (_ || _)|]; frame; case_ifs; frame.
Qed.

Lemma caseLatency_currentHistogram ps e :
  currentHistogram (caseLatency ps e) =
  hdrhistogram.RecordValue
    (if closesWindow ps (time.Unix (Timestamp e))
     then hdrhistogram.New 1 (60 * 1000 * 1000) 3
     else currentHistogram ps)
    (LatencyMicros e).
Proof.
  unfold caseLatency, closesWindow. cbv zeta.
  destruct (negb _); [destruct (_ || _)|]; frame; case_ifs; frame.
Qed.

Lemma caseLatency_windowedHistograms ps e :
  windowedHistograms (caseLatency ps e) =
  if closesWindow ps (time.Unix (Timestamp e)) then
    if hdrhistogram.TotalCount (currentHistogram ps) >? 0
    then <[currentWindowStartSecond ps := currentHistogram ps]>
           (windowedHistograms ps)
    else windowedHistograms ps
  else windowedHistograms ps.
Proof.
  unfold caseLatency, closesWindow. cbv zeta.
  destruct (negb _); [destruct (_ || _)|]; frame; case_ifs; frame.
Qed.

(** While the events stay in the window the archive is not written and the
    current histogram counts the latency events. *)
Lemma statsCollector_fills_window (w : Z) rs : forall ps n,
  Forall (staysInWindow w) rs ->
  windowHolds ps w n ->
  0 <= n -> n + successes rs <= int64.MaxInt64 ->
  windowHolds (statsCollector ps rs) w (n + successes rs) /\
  windowedHistograms (statsCollector ps rs) = windowedHistograms ps.
Proof.
  induction rs as [|r rs IH]; intros ps n Hall (Hw & Hlo & Hhi & Hn) H0 Hfit.
  - cbn [statsCollector successes]. rewrite Z.add_0_r. repeat split; assumption.
  - apply Forall_cons in Hall as [Hr Hall].
    pose proof (successes_nonneg rs) as Hs.
    destruct r as [e|now|]; cbn [statsCollector successes staysInWindow] in *.
    + destruct Hr as [Hsec Hlat].
      assert (closesWindow ps (time.Unix (Timestamp e)) = false) as Hopen.
      { unfold closesWindow. rewrite Hw, Z.geb_leb. apply Z.leb_gt, Hsec. }
      destruct (IH (caseLatency ps e) (n + 1)) as [Hwin Harch].
      * exact Hall.
      * unfold windowHolds.
        rewrite caseLatency_currentWindowStartSecond,
          caseLatency_currentHistogram, Hopen,
          hdrhistogram.LowestTrackableValue_RecordValue,
          hdrhistogram.HighestTrackableValue_RecordValue,
          hdrhistogram.TotalCount_RecordValue.
        -- repeat split; [assumption..|lia].
        -- rewrite Hlo, Hhi. exact Hlat.
        -- lia.
      * lia.
      * lia.
      * split.
        -- replace (n + (1 + successes rs)) with (n + 1 + successes rs) by lia.
           exact Hwin.
        -- rewrite Harch, caseLatency_windowedHistograms, Hopen. reflexivity.
    + destruct (IH (caseError ps now) n) as [Hwin Harch].
      * exact Hall.
      * unfold windowHolds.
        rewrite caseError_currentWindowStartSecond,
          caseError_currentHistogram.
        repeat split; assumption.
      * exact H0.
      * exact Hfit.
      * split; [exact Hwin|].
        rewrite Harch. apply caseError_windowedHistograms.
    + destruct Hr.
Qed.

(** The latency event that closes a window holding at least one value:
    the histogram of the window is archived under the window's start as it
    was before the event, and the event is recorded in a new histogram. *)
Lemma caseLatency_closes_window ps e :
  closesWindow ps (time.Unix (Timestamp e)) = true ->
  0 < hdrhistogram.TotalCount (currentHistogram ps) ->
  windowedHistograms (caseLatency ps e) !! currentWindowStartSecond ps
    = Some (currentHistogram ps) /\
  currentWindowStartSecond (caseLatency ps e) = time.Unix (Timestamp e) /\
  currentHistogram (caseLatency ps e) =
    hdrhistogram.RecordValue (hdrhistogram.New 1 (60 * 1000 * 1000) 3)
      (LatencyMicros e).
Proof.
  intros Hclose Hcount.
  rewrite caseLatency_windowedHistograms, caseLatency_currentWindowStartSecond,
    caseLatency_currentHistogram, Hclose.
  apply Z.gtb_lt in Hcount. rewrite Hcount, lookup_insert_eq.
  repeat split.
Qed.

(** C4. With [MetricWindowSizeSeconds = 5], let a new aggregator receive one
    success per second at seconds 0, 1, 2, 3, 4 (latencies in the range of the
    histograms) and then a success at second 5.  Before the last event the
    archive is empty and the current histogram holds the five values; the
    last event archives that histogram, with its count of 5, under key 0, and
    is itself recorded in a newly created current histogram whose window
    starts at second 5. *)
Theorem window_archive_boundary (now0 now1 : time.Time)
    (v0 v1 v2 v3 v4 v5 n0 n1 n2 n3 n4 n5 : Z) :
  Forall (fun v => 1 <= v <= 60 * 1000 * 1000) [v0; v1; v2; v3; v4] ->
  let before :=
    statsCollector (NewPerformanceStats now0 now1)
      [RecvLatency (mkLatencyEvent v0 (time.mkTime 0 n0));
       RecvLatency (mkLatencyEvent v1 (time.mkTime 1 n1));
       RecvLatency (mkLatencyEvent v2 (time.mkTime 2 n2));
       RecvLatency (mkLatencyEvent v3 (time.mkTime 3 n3));
       RecvLatency (mkLatencyEvent v4 (time.mkTime 4 n4))] in
  let after := caseLatency before (mkLatencyEvent v5 (time.mkTime 5 n5)) in
  windowedHistograms before = ∅ /\
  hdrhistogram.TotalCount (currentHistogram before) = 5 /\
  windowedHistograms after !! 0 = Some (currentHistogram before) /\
  currentWindowStartSecond after = 5 /\
  currentHistogram after =
    hdrhistogram.RecordValue (hdrhistogram.New 1 (60 * 1000 * 1000) 3) v5.
Proof.
  intros Hlat before after.
  destruct (statsCollector_fills_window 0
              [RecvLatency (mkLatencyEvent v0 (time.mkTime 0 n0));
               RecvLatency (mkLatencyEvent v1 (time.mkTime 1 n1));
               RecvLatency (mkLatencyEvent v2 (time.mkTime 2 n2));
               RecvLatency (mkLatencyEvent v3 (time.mkTime 3 n3));
               RecvLatency (mkLatencyEvent v4 (time.mkTime 4 n4))]
              (NewPerformanceStats now0 now1) 0)
    as [(Hw & _ & _ & Hn) Harch].
  - repeat (apply Forall_cons in Hlat as [? Hlat]).
    repeat (apply Forall_cons; split); [..|apply Forall_nil_2];
      (split; [reflexivity | assumption]).
  - unfold windowHolds.
    cbn [NewPerformanceStats currentWindowStartSecond currentHistogram].
    rewrite hdrhistogram.LowestTrackableValue_New,
      hdrhistogram.HighestTrackableValue_New, hdrhistogram.TotalCount_New.
    repeat split.
  - lia.
  - vm_compute. discriminate.
  - fold before in Hw, Hn, Harch.
    change (0 + successes _) with 5 in Hn.
    destruct (caseLatency_closes_window before
                (mkLatencyEvent v5 (time.mkTime 5 n5)))
      as (Hkey & Hstart & Hcur).
    + unfold closesWindow. rewrite Hw. reflexivity.
    + lia.
    + rewrite Hw in Hkey. repeat split; assumption.
Qed.

(** ** Queries *)

(** C7. [GetPreviousWindowStats] reads the archive at
    [currentWindowStartSecond - MetricWindowSizeSeconds]: when a histogram
    with recorded values is archived there, the result is its count, its 50th,
    95th and 99th percentiles and its maximum; and the result is the all-zero
    tuple exactly when no histogram is archived there or the archived one has
    no recorded value. *)
Theorem previous_window_snapshot ps :
  let key :=
    int64.sub (currentWindowStartSecond ps) MetricWindowSizeSeconds in
  (forall h,
      windowedHistograms ps !! key = Some h ->
      hdrhistogram.TotalCount h <> 0 ->
      GetPreviousWindowStats ps =
      (hdrhistogram.TotalCount h,
       hdrhistogram.ValueAtQuantile h 50%float,
       hdrhistogram.ValueAtQuantile h 95%float,
       hdrhistogram.ValueAtQuantile h 99%float,
       hdrhistogram.Max h)) /\
  (GetPreviousWindowStats ps = (0, 0, 0, 0, 0) <->
   windowedHistograms ps !! key = None \/
   exists h,
     windowedHistograms ps !! key = Some h /\ hdrhistogram.TotalCount h = 0).
Proof.
  intros key. unfold GetPreviousWindowStats. fold key.
  destruct (windowedHistograms ps !! key) as [h|] eqn:Hkey.
  - destruct (hdrhistogram.TotalCount h =? 0) eqn:Hcount.
    + apply Z.eqb_eq in Hcount. split.
      * intros h' [= <-] Hne. contradiction.
      * split; [|reflexivity]. intros _. right. exists h. split; [reflexivity|exact Hcount].
    + apply Z.eqb_neq in Hcount. split.
      * intros h' [= <-] _. reflexivity.
      * split.
        -- intros [= Hzero _ _ _ _]. contradiction.
        -- intros [[=]|(h' & [= <-] & Hzero)]. contradiction.
  - split.
    + intros h [=].
    + split; [|reflexivity]. intros _. left. reflexivity.
Qed.

(** C8. [GetLastSecondPercentile] at clock value [now], for a percentile
    [p]: the quantile at [p] of the archive entry keyed by [now - 1] when
    there is one with recorded values; otherwise the quantile at [p] of the
    current histogram when it has recorded values; otherwise 0. *)
Theorem last_second_percentile ps (now : time.Time) (p : float) :
  let lastSec := int64.sub (time.Unix now) 1 in
  (forall hist,
      windowedHistograms ps !! lastSec = Some hist ->
      0 < hdrhistogram.TotalCount hist ->
      GetLastSecondPercentile ps now p = hdrhistogram.ValueAtQuantile hist p) /\
  (windowedHistograms ps !! lastSec = None \/
   (exists hist,
      windowedHistograms ps !! lastSec = Some hist /\
      ~ 0 < hdrhistogram.TotalCount hist) ->
   (0 < hdrhistogram.TotalCount (currentHistogram ps) ->
    GetLastSecondPercentile ps now p =
    hdrhistogram.ValueAtQuantile (currentHistogram ps) p) /\
   (~ 0 < hdrhistogram.TotalCount (currentHistogram ps) ->
    GetLastSecondPercentile ps now p = 0)).
Proof.
  intros lastSec. unfold GetLastSecondPercentile. fold lastSec.
  assert (forall z, (z >? 0) = true <-> 0 < z) as Hgt
    by (intros z; apply Z.gtb_lt).
  assert ((0 < hdrhistogram.TotalCount (currentHistogram ps) ->
           (if hdrhistogram.TotalCount (currentHistogram ps) >? 0
            then hdrhistogram.ValueAtQuantile (currentHistogram ps) p
            else 0) = hdrhistogram.ValueAtQuantile (currentHistogram ps) p) /\
          (~ 0 < hdrhistogram.TotalCount (currentHistogram ps) ->
           (if hdrhistogram.TotalCount (currentHistogram ps) >? 0
            then hdrhistogram.ValueAtQuantile (currentHistogram ps) p
            else 0) = 0)) as Hfallback.
  { destruct (hdrhistogram.TotalCount (currentHistogram ps) >? 0) eqn:Hcur.
    - apply Hgt in Hcur. split; [reflexivity|]. intros Hn. contradiction.
    - split; [|reflexivity]. intros Hpos%Hgt. congruence. }
  destruct (windowedHistograms ps !! lastSec) as [hist|] eqn:Hkey.
  - destruct (hdrhistogram.TotalCount hist >? 0) eqn:Hcount.
    + apply Hgt in Hcount. split.
      * intros hist' [= <-] _. reflexivity.
      * intros [[=]|(hist' & [= <-] & Hempty)]. contradiction.
    + split.
      * intros hist' [= <-] Hpos%Hgt. congruence.
      * intros _. exact Hfallback.
  - split.
    + intros hist [=].
    + intros _. exact Hfallback.
Qed.

(** Dividing zero by a float that is neither zero nor NaN gives a zero. *)
Lemma float_zero_div (x : float) :
  is_nan x = false -> (x =? 0)%float = false -> (0 / x =? 0)%float = true.
Proof.
  unfold is_nan. rewrite !FloatAxioms.eqb_spec, FloatAxioms.div_spec.
  change (Prim2SF 0) with (S754_zero false).
  destruct (Prim2SF x) as [s|s| |s m e]; cbn; try discriminate;
    destruct s; reflexivity.
Qed.

Lemma GetQPS_elapsed_zero ps (elapsed : float) :
  (elapsed =? 0)%float = true -> GetQPS ps elapsed = 0%float.
Proof. intros Hzero. unfold GetQPS. rewrite Hzero. reflexivity. Qed.

(** C9. A new aggregator that has processed no event: [GetQPS] is zero
    whatever the elapsed time (a number, as [Duration.Seconds] returns), and
    [GetQPS] of any aggregator is 0 when the elapsed time is zero; the
    percentiles of [GetStats] are 0; [GetPreviousWindowStats] is the all-zero
    tuple; [GetOpsLastSecond] and [GetErrorsLastSecond] are 0. *)
Theorem empty_state_defaults (now0 now1 : time.Time) (elapsed : float)
    (now : time.Time) :
  is_nan elapsed = false ->
  let ps := NewPerformanceStats now0 now1 in
  (GetQPS ps elapsed =? 0)%float = true /\
  (forall ps' z, (z =? 0)%float = true -> GetQPS ps' z = 0%float) /\
  GetStats ps elapsed = (0, 0, 0, GetQPS ps elapsed, 0, 0, 0) /\
  GetPreviousWindowStats ps = (0, 0, 0, 0, 0) /\
  GetOpsLastSecond ps now = 0 /\
  GetErrorsLastSecond ps now = 0.
Proof.
  intros Hnum ps. split; [|split; [|split; [|split; [|split]]]].
  - unfold GetQPS. destruct (elapsed =? 0)%float eqn:Hzero; [reflexivity|].
    apply float_zero_div; assumption.
  - intros ps'. apply GetQPS_elapsed_zero.
  - unfold GetStats, ps. cbn [NewPerformanceStats Histogram].
    rewrite hdrhistogram.TotalCount_New. reflexivity.
  - unfold GetPreviousWindowStats, ps.
    cbn [NewPerformanceStats windowedHistograms].
    rewrite lookup_empty. reflexivity.
  - unfold GetOpsLastSecond, ps. cbn [NewPerformanceStats perSecondOps].
    rewrite lookup_empty. reflexivity.
  - unfold GetErrorsLastSecond, ps. cbn [NewPerformanceStats perSecondErrors].
    rewrite lookup_empty. reflexivity.
Qed.

(** ** The mailboxes *)

Lemma try_send_full {T : Type} (c : chan T) (x : T) :
  chan_full c -> try_send c x = (c, false).
Proof.
  unfold chan_full, try_send. intros Hfull.
  destruct (chan_len c <? cap c) eqn:Hroom; [|reflexivity].
  apply Z.ltb_lt in Hroom. lia.
Qed.

Lemma try_send_bounded {T : Type} (c : chan T) (x : T) :
  chan_len c <= cap c ->
  cap (try_send c x).1 = cap c /\
  chan_len (try_send c x).1 <= cap c.
Proof.
  unfold try_send. intros Hlen.
  destruct (chan_len c <? cap c) eqn:Hroom; cbn [fst cap]; [|auto].
  apply Z.ltb_lt in Hroom. split; [reflexivity|].
  unfold chan_len in *. cbn [buf]. rewrite length_app. cbn [length]. lia.
Qed.

Lemma recv_bounded {T : Type} (c c' : chan T) (x : T) :
  recv c = Some (x, c') ->
  cap c' = cap c /\ chan_len c' <= chan_len c.
Proof.
  unfold recv, chan_len. destruct (buf c) as [|y rest]; [discriminate|].
  intros [= _ <-]. cbn [cap buf length]. lia.
Qed.

Lemma caseLatency_latencyChannel ps e :
  latencyChannel (caseLatency ps e) = latencyChannel ps.
Proof. unfold caseLatency. cbv zeta. case_ifs; frame. Qed.

Lemma caseLatency_errorChannel ps e :
  errorChannel (caseLatency ps e) = errorChannel ps.
Proof. unfold caseLatency. cbv zeta. case_ifs; frame. Qed.

Lemma caseError_latencyChannel ps now :
  latencyChannel (caseError ps now) = latencyChannel ps.
Proof. unfold caseError. cbv zeta. case_ifs; frame. Qed.

Lemma caseError_errorChannel ps now :
  errorChannel (caseError ps now) = errorChannel ps.
Proof. unfold caseError. cbv zeta. case_ifs; frame. Qed.

(** A full mailbox: the call returns with the handle as it was, so the event
    is queued nowhere and no field of the aggregate has changed. *)
Lemma RecordLatency_full ps (latencyMicros : Z) (now : time.Time) :
  chan_full (latencyChannel ps) -> RecordLatency ps latencyMicros now = ps.
Proof.
  intros Hfull. unfold RecordLatency. rewrite try_send_full by exact Hfull.
  reflexivity.
Qed.

Lemma RecordError_full ps :
  chan_full (errorChannel ps) -> RecordError ps = ps.
Proof.
  intros Hfull. unfold RecordError. rewrite try_send_full by exact Hfull.
  reflexivity.
Qed.

Lemma RecordLatency_mailboxesBounded ps (latencyMicros : Z) (now : time.Time) :
  mailboxesBounded ps -> mailboxesBounded (RecordLatency ps latencyMicros now).
Proof.
  intros [[Hcap Hlen] Herr]. unfold RecordLatency.
  pose proof (try_send_bounded (latencyChannel ps)
                (mkLatencyEvent latencyMicros now)) as Hsend.
  destruct (try_send _ _) as [c [|]]; cbn [fst] in Hsend.
  - split; [|exact Herr]. fields.
    destruct Hsend as [-> Hlen']; [lia|]. split; [exact Hcap|lia].
  - split; [split|]; assumption.
Qed.

Lemma RecordError_mailboxesBounded ps :
  mailboxesBounded ps -> mailboxesBounded (RecordError ps).
Proof.
  intros [Hlat [Hcap Hlen]]. unfold RecordError.
  pose proof (try_send_bounded (errorChannel ps) tt) as Hsend.
  destruct (try_send _ _) as [c [|]]; cbn [fst] in Hsend.
  - split; [exact Hlat|]. fields.
    destruct Hsend as [-> Hlen']; [lia|]. split; [exact Hcap|lia].
  - split; [|split]; assumption.
Qed.

Lemma step_mailboxesBounded (w w' : World) (a : Action) :
  step w a = Some w' ->
  mailboxesBounded (stats w) -> mailboxesBounded (stats w').
Proof.
  intros Hstep Hinv. destruct a as [v now| | | |now|]; cbn [step] in Hstep.
  - injection Hstep as <-. apply RecordLatency_mailboxesBounded, Hinv.
  - injection Hstep as <-. apply RecordError_mailboxesBounded, Hinv.
  - unfold Close in Hstep. destruct (closed _); [discriminate|].
    injection Hstep as <-. exact Hinv.
  - destruct (collectorRunning w); [|discriminate].
    destruct (recv _) as [[event c]|] eqn:Hrecv; [|discriminate].
    injection Hstep as <-. apply recv_bounded in Hrecv as [Hcap Hlen].
    destruct Hinv as [[Hc Hl] Herr]. unfold mailboxesBounded. cbn [stats].
    rewrite caseLatency_latencyChannel, caseLatency_errorChannel. fields.
    split; [split; [congruence|lia]|exact Herr].
  - destruct (collectorRunning w); [|discriminate].
    destruct (recv _) as [[u c]|] eqn:Hrecv; [|discriminate].
    injection Hstep as <-. apply recv_bounded in Hrecv as [Hcap Hlen].
    destruct Hinv as [Hlat [Hc Hl]]. unfold mailboxesBounded. cbn [stats].
    rewrite caseError_latencyChannel, caseError_errorChannel. fields.
    split; [exact Hlat|split; [congruence|lia]].
  - destruct (_ && _); [|discriminate]. injection Hstep as <-. exact Hinv.
Qed.

Lemma steps_mailboxesBounded (acts : list Action) : forall w w',
  steps w acts = Some w' ->
  mailboxesBounded (stats w) -> mailboxesBounded (stats w').
Proof.
  induction acts as [|a acts IH]; intros w w' Hsteps Hinv;
    cbn [steps] in Hsteps.
  - injection Hsteps as <-. exact Hinv.
  - destruct (step w a) as [w1|] eqn:Hstep; [|discriminate].
    apply (IH w1 w' Hsteps). apply (step_mailboxesBounded w w1 a Hstep Hinv).
Qed.

(** C6. [RecordLatency] and [RecordError] are total: a call returns in every
    state.  When the mailbox is full the call returns the handle unchanged
    (the event is dropped and no field of the aggregate is touched).  And in
    every state the system reaches from a new aggregator, whatever the
    producers and the collector do, the latency mailbox holds at most
    1000000 events and the error mailbox at most 100. *)
Theorem overload_policy :
  (forall ps latencyMicros now,
      chan_full (latencyChannel ps) ->
      RecordLatency ps latencyMicros now = ps) /\
  (forall ps, chan_full (errorChannel ps) -> RecordError ps = ps) /\
  (forall now0 now1 acts w,
      steps (create now0 now1) acts = Some w ->
      chan_len (latencyChannel (stats w)) <= 1000000 /\
      chan_len (errorChannel (stats w)) <= 100).
Proof.
  split; [|split].
  - apply RecordLatency_full.
  - apply RecordError_full.
  - intros now0 now1 acts w Hsteps.
    destruct (steps_mailboxesBounded acts _ _ Hsteps) as [[_ Hlat] [_ Herr]].
    + unfold mailboxesBounded, chan_len. cbn. lia.
    + split; assumption.
Qed.

(** ** The rolling 60-second window *)

Lemma caseLatency_rollingWindow ps e :
  rollingWindow ps -> rollingWindow (caseLatency ps e).
Proof.
  intros Hroll k.
  rewrite caseLatency_perSecondOps, caseLatency_lastSecond.
  destruct (negb _) eqn:Hsec.
  - destruct (_ >? 60) eqn:Hold.
    + intros []%is_Some_None.
    + intros _. rewrite Z.gtb_ltb in Hold. apply Z.ltb_ge, Hold.
  - apply negb_false_iff, Z.eqb_eq in Hsec. rewrite Hsec. apply Hroll.
Qed.

Lemma latency_only_invariants (events : list LatencyEvent) : forall ps,
  rollingWindow ps /\ same_keys ps ->
  rollingWindow (statsCollector ps (map RecvLatency events)) /\
  same_keys (statsCollector ps (map RecvLatency events)).
Proof.
  induction events as [|e events IH]; intros ps [Hroll Hkeys];
    cbn [map statsCollector]; [split; assumption|].
  apply IH. split.
  - apply caseLatency_rollingWindow, Hroll.
  - apply caseLatency_same_keys, Hkeys.
Qed.

(** When only latency events are processed, the per-second maps keep a
    rolling window: after each event no key of either map is more than 60
    seconds older than the event. *)
Lemma latency_only_rolling_window (now0 now1 : time.Time)
    (events : list LatencyEvent) (k : Z) :
  let ps :=
    statsCollector (NewPerformanceStats now0 now1) (map RecvLatency events) in
  is_Some (perSecondOps ps !! k) \/ is_Some (perSecondErrors ps !! k) ->
  int64.sub (lastSecond ps) k <= 60.
Proof.
  intros ps Hkey.
  destruct (latency_only_invariants events (NewPerformanceStats now0 now1))
    as [Hroll Hkeys].
  { split.
    - intros k'. cbn [NewPerformanceStats perSecondOps].
      rewrite lookup_empty. intros []%is_Some_None.
    - intros k'. cbn [NewPerformanceStats perSecondOps perSecondErrors].
      rewrite !lookup_empty. reflexivity. }
  apply Hroll. destruct Hkey as [Hops|Herr]; [exact Hops|].
  apply Hkeys, Herr.
Qed.

(** ** The collector inside the system *)

Lemma caseLatency_Histogram ps e :
  Histogram (caseLatency ps e) =
  hdrhistogram.RecordValue (Histogram ps) (LatencyMicros e).
Proof. unfold caseLatency. cbv zeta. case_ifs; frame. Qed.

Lemma caseLatency_StartTime ps e :
  StartTime (caseLatency ps e) = StartTime ps.
Proof. unfold caseLatency. cbv zeta. case_ifs; frame. Qed.

Lemma caseLatency_currentSecondOps ps e :
  currentSecondOps (caseLatency ps e) =
  int64.incr
    (if negb (time.Unix (Timestamp e) =? lastSecond ps) then 0
     else currentSecondOps ps).
Proof. unfold caseLatency. cbv zeta. case_ifs; frame. Qed.

Lemma caseLatency_currentSecondErrors ps e :
  currentSecondErrors (caseLatency ps e) =
  if negb (time.Unix (Timestamp e) =? lastSecond ps) then 0
  else currentSecondErrors ps.
Proof. unfold caseLatency. cbv zeta. case_ifs; frame. Qed.

Lemma caseError_Histogram ps now :
  Histogram (caseError ps now) = Histogram ps.
Proof. unfold caseError. cbv zeta. case_ifs; frame. Qed.

Lemma caseError_StartTime ps now :
  StartTime (caseError ps now) = StartTime ps.
Proof. unfold caseError. cbv zeta. case_ifs; frame. Qed.

Lemma caseError_currentSecondOps ps now :
  currentSecondOps (caseError ps now) =
  if negb (time.Unix now =? lastSecond ps) then 0 else currentSecondOps ps.
Proof. unfold caseError. cbv zeta. case_ifs; frame. Qed.

Lemma caseError_currentSecondErrors ps now :
  currentSecondErrors (caseError ps now) =
  int64.incr
    (if negb (time.Unix now =? lastSecond ps) then 0
     else currentSecondErrors ps).
Proof. unfold caseError. cbv zeta. case_ifs; frame. Qed.

Lemma sameAggregate_refl ps : sameAggregate ps ps.
Proof. unfold sameAggregate. repeat split. Qed.

Lemma sameAggregate_trans ps1 ps2 ps3 :
  sameAggregate ps1 ps2 -> sameAggregate ps2 ps3 -> sameAggregate ps1 ps3.
Proof. unfold sameAggregate. intuition congruence. Qed.

Lemma set_latencyChannel_sameAggregate (c : chan LatencyEvent) ps :
  sameAggregate (set_latencyChannel c ps) ps.
Proof. unfold sameAggregate. repeat split. Qed.

Lemma set_errorChannel_sameAggregate (c : chan unit) ps :
  sameAggregate (set_errorChannel c ps) ps.
Proof. unfold sameAggregate. repeat split. Qed.

Lemma set_done_sameAggregate (c : chan unit) ps :
  sameAggregate (set_done c ps) ps.
Proof. unfold sameAggregate. repeat split. Qed.

(** Neither case of the loop reads a channel field: on two states with the
    same aggregate they produce the same aggregate. *)
Lemma caseLatency_sameAggregate ps1 ps2 e :
  sameAggregate ps1 ps2 ->
  sameAggregate (caseLatency ps1 e) (caseLatency ps2 e).
Proof.
  unfold sameAggregate.
  intros (HT & HS & HF & HH & Hst & Hw & Hc & Ha & Ho & He & Hl & Hco & Hce).
  assert (savedOps ps1 = savedOps ps2) as Hso
    by (unfold savedOps; rewrite Ho, Hl, Hco, Hce; reflexivity).
  assert (savedErrors ps1 = savedErrors ps2) as Hse
    by (unfold savedErrors; rewrite He, Hl, Hco, Hce; reflexivity).
  rewrite !caseLatency_TotalOps, !caseLatency_SuccessOps,
    !caseLatency_FailedOps, !caseLatency_Histogram, !caseLatency_StartTime,
    !caseLatency_currentWindowStartSecond, !caseLatency_currentHistogram,
    !caseLatency_windowedHistograms, !caseLatency_lastSecond,
    !caseLatency_currentSecondOps, !caseLatency_currentSecondErrors.
  unfold closesWindow.
  rewrite HT, HS, HF, HH, Hst, Hw, Hc, Ha, Hl, Hco, Hce.
  repeat split.
  - apply map_eq. intros k.
    rewrite !caseLatency_perSecondOps, Hso, Ho, Hl. reflexivity.
  - apply map_eq. intros k.
    rewrite !caseLatency_perSecondErrors, Hso, Hse, He, Hl. reflexivity.
Qed.

Lemma caseError_sameAggregate ps1 ps2 now :
  sameAggregate ps1 ps2 ->
  sameAggregate (caseError ps1 now) (caseError ps2 now).
Proof.
  unfold sameAggregate.
  intros (HT & HS & HF & HH & Hst & Hw & Hc & Ha & Ho & He & Hl & Hco & Hce).
  assert (savedOps ps1 = savedOps ps2) as Hso
    by (unfold savedOps; rewrite Ho, Hl, Hco, Hce; reflexivity).
  assert (savedErrors ps1 = savedErrors ps2) as Hse
    by (unfold savedErrors; rewrite He, Hl, Hco, Hce; reflexivity).
  rewrite !caseError_TotalOps, !caseError_SuccessOps,
    !caseError_FailedOps, !caseError_Histogram, !caseError_StartTime,
    !caseError_currentWindowStartSecond, !caseError_currentHistogram,
    !caseError_windowedHistograms, !caseError_lastSecond,
    !caseError_currentSecondOps, !caseError_currentSecondErrors,
    !caseError_perSecondOps, !caseError_perSecondErrors.
  rewrite HT, HS, HF, HH, Hst, Hw, Hc, Ha, Ho, He, Hl, Hco, Hce, Hso, Hse.
  repeat split.
Qed.

(** One step of the system is, for the aggregate, an iteration of the
    collector's loop or nothing. *)
Lemma step_sameAggregate (w w' : World) (a : Action) ps :
  step w a = Some w' ->
  sameAggregate (stats w) ps ->
  match a with
  | CollectLatency =>
      exists event, sameAggregate (stats w') (caseLatency ps event)
  | CollectError now => sameAggregate (stats w') (caseError ps now)
  | _ => sameAggregate (stats w') ps
  end.
Proof.
  intros Hstep Hagg. destruct a as [v now| | | |now|]; cbn [step] in Hstep.
  - injection Hstep as <-. cbn [stats]. unfold RecordLatency.
    destruct (try_send _ _) as [c [|]]; [|exact Hagg].
    eapply sameAggregate_trans; [apply set_latencyChannel_sameAggregate|].
    exact Hagg.
  - injection Hstep as <-. cbn [stats]. unfold RecordError.
    destruct (try_send _ _) as [c [|]]; [|exact Hagg].
    eapply sameAggregate_trans; [apply set_errorChannel_sameAggregate|].
    exact Hagg.
  - unfold Close in Hstep. destruct (closed _); [discriminate|].
    injection Hstep as <-. cbn [stats].
    eapply sameAggregate_trans; [apply set_done_sameAggregate|]. exact Hagg.
  - destruct (collectorRunning w); [|discriminate].
    destruct (recv _) as [[event c]|]; [|discriminate].
    injection Hstep as <-. exists event. cbn [stats].
    apply caseLatency_sameAggregate.
    eapply sameAggregate_trans; [apply set_latencyChannel_sameAggregate|].
    exact Hagg.
  - destruct (collectorRunning w); [|discriminate].
    destruct (recv _) as [[u c]|]; [|discriminate].
    injection Hstep as <-. cbn [stats].
    apply caseError_sameAggregate.
    eapply sameAggregate_trans; [apply set_errorChannel_sameAggregate|].
    exact Hagg.
  - destruct (_ && _); [|discriminate]. injection Hstep as <-. exact Hagg.
Qed.

(** Whatever the producers and the collector do, the aggregate of the handle
    is the one [statsCollector] computes on the sequence the collector has
    received, which holds one latency event for each [CollectLatency] step
    and one error signal for each [CollectError] step. *)
Lemma steps_statsCollector (acts : list Action) : forall (w w' : World) ps,
  steps w acts = Some w' ->
  sameAggregate (stats w) ps ->
  exists rs,
    sameAggregate (stats w') (statsCollector ps rs) /\
    successes rs = collectedLatencies acts /\
    failures rs = collectedErrors acts.
Proof.
  induction acts as [|a acts IH]; intros w w' ps Hsteps Hagg;
    cbn [steps] in Hsteps.
  - injection Hsteps as <-. exists [].
    split; [exact Hagg|split; reflexivity].
  - destruct (step w a) as [w1|] eqn:Hstep; [|discriminate].
    pose proof (step_sameAggregate w w1 a ps Hstep Hagg) as Hone.
    destruct a as [v now| | | |now|];
      cbn [collectedLatencies collectedErrors].
    + apply (IH w1 w' ps Hsteps Hone).
    + apply (IH w1 w' ps Hsteps Hone).
    + apply (IH w1 w' ps Hsteps Hone).
    + destruct Hone as [event Hone].
      destruct (IH w1 w' _ Hsteps Hone) as (rs & Hrs & HN & HM).
      exists (RecvLatency event :: rs). cbn [statsCollector successes failures].
      split; [exact Hrs|split; [lia|exact HM]].
    + destruct (IH w1 w' _ Hsteps Hone) as (rs & Hrs & HN & HM).
      exists (RecvError now :: rs). cbn [statsCollector successes failures].
      split; [exact Hrs|split; [exact HN|lia]].
    + apply (IH w1 w' ps Hsteps Hone).
Qed.

(** * Further properties of the code *)

(** ** Counters and the overall histogram *)

(** X1. Without any bound on the number of events: after the collector has
    processed N success events and M failure events from a new aggregator,
    each counter holds the corresponding count reduced to an [int64] by
    two's-complement wrap-around. *)
Theorem counters_wrap_around (now0 now1 : time.Time) rs :
  TotalOps (statsCollector (NewPerformanceStats now0 now1) rs)
    = int64.wrap (successes rs + failures rs) /\
  SuccessOps (statsCollector (NewPerformanceStats now0 now1) rs)
    = int64.wrap (successes rs) /\
  FailedOps (statsCollector (NewPerformanceStats now0 now1) rs)
    = int64.wrap (failures rs).
Proof.
  rewrite (statsCollector_TotalOps rs _ 0),
    (statsCollector_SuccessOps rs _ 0),
    (statsCollector_FailedOps rs _ 0) by reflexivity.
  rewrite !Z.add_0_l. repeat split.
Qed.

Lemma statsCollector_Histogram rs : forall ps,
  Histogram (statsCollector ps rs) =
  fold_left hdrhistogram.RecordValue (latencies rs) (Histogram ps).
Proof.
  induction rs as [|[e|now|] rs IH]; intros ps;
    cbn [statsCollector latencies fold_left].
  - reflexivity.
  - rewrite IH, caseLatency_Histogram. reflexivity.
  - rewrite IH, caseError_Histogram. reflexivity.
  - reflexivity.
Qed.

Lemma latencies_length rs : Z.of_nat (length (latencies rs)) = successes rs.
Proof.
  induction rs as [|[e|now|] rs IH]; cbn [latencies successes length];
    lia.
Qed.

(** Recording values of the trackable range adds their number to the
    count. *)
Lemma fold_RecordValue_TotalCount (vs : list Z) :
  forall h : hdrhistogram.Histogram,
    Forall (fun v => hdrhistogram.LowestTrackableValue h <= v
                     <= hdrhistogram.HighestTrackableValue h) vs ->
    0 <= hdrhistogram.TotalCount h ->
    hdrhistogram.TotalCount h + Z.of_nat (length vs) <= int64.MaxInt64 ->
    hdrhistogram.TotalCount (fold_left hdrhistogram.RecordValue vs h) =
    hdrhistogram.TotalCount h + Z.of_nat (length vs).
Proof.
  induction vs as [|v vs IH]; intros h Hall H0 Hfit;
    cbn [fold_left length] in *.
  - lia.
  - apply Forall_cons in Hall as [Hv Hall].
    assert (hdrhistogram.TotalCount (hdrhistogram.RecordValue h v)
            = hdrhistogram.TotalCount h + 1) as Hone
      by (apply hdrhistogram.TotalCount_RecordValue; [exact Hv|lia]).
    rewrite IH.
    + rewrite Hone. lia.
    + rewrite hdrhistogram.LowestTrackableValue_RecordValue,
        hdrhistogram.HighestTrackableValue_RecordValue. exact Hall.
    + lia.
    + lia.
Qed.

(** X2. The overall histogram is written once per success event and by
    nothing else: after any received sequence it is the initial histogram
    with the latencies of the processed success events recorded in order of
    processing. *)
Theorem overall_histogram_records_latencies ps rs :
  Histogram (statsCollector ps rs) =
  fold_left hdrhistogram.RecordValue (latencies rs) (Histogram ps) /\
  StartTime (statsCollector ps rs) = StartTime ps.
Proof.
  split; [apply statsCollector_Histogram|].
  apply (statsCollector_invariant (fun ps' => StartTime ps' = StartTime ps)).
  - intros ps' e Hst. rewrite caseLatency_StartTime. exact Hst.
  - intros ps' now Hst. rewrite caseError_StartTime. exact Hst.
  - reflexivity.
Qed.

(** X3. [GetStats] and [GetOverallStats] after a drain.  From a new
    aggregator, when at least one success event was processed, every latency
    lies in the range of the histograms and the number of events fits an
    [int64]: the overall histogram counts exactly the success events, and
    [GetStats] returns the three counts, the throughput, and the 50th, 95th
    and 99th percentiles of the histogram of the processed latencies;
    [GetOverallStats] returns the same counts and throughput. *)
Theorem snapshot_after_drain (now0 now1 : time.Time) rs (elapsed : float) :
  Forall (fun v => 1 <= v <= 60 * 1000 * 1000) (latencies rs) ->
  0 < successes rs ->
  successes rs + failures rs <= int64.MaxInt64 ->
  let ps := statsCollector (NewPerformanceStats now0 now1) rs in
  let h :=
    fold_left hdrhistogram.RecordValue (latencies rs)
      (hdrhistogram.New 1 (60 * 1000 * 1000) 3) in
  hdrhistogram.TotalCount (Histogram ps) = SuccessOps ps /\
  GetStats ps elapsed =
  (successes rs + failures rs, successes rs, failures rs, GetQPS ps elapsed,
   hdrhistogram.ValueAtQuantile h 50%float,
   hdrhistogram.ValueAtQuantile h 95%float,
   hdrhistogram.ValueAtQuantile h 99%float) /\
  GetOverallStats ps elapsed =
  (successes rs + failures rs, successes rs, failures rs, GetQPS ps elapsed).
Proof.
  intros Hlat Hpos Hfit ps h.
  pose proof (failures_nonneg rs) as HM.
  assert (TotalOps ps = successes rs + failures rs /\
          SuccessOps ps = successes rs /\ FailedOps ps = failures rs)
    as (HT & HS & HF).
  { unfold ps.
    rewrite (statsCollector_TotalOps rs _ 0),
      (statsCollector_SuccessOps rs _ 0),
      (statsCollector_FailedOps rs _ 0) by reflexivity.
    rewrite !int64_wrap_count by lia. repeat split. }
  assert (Histogram ps = h) as HH by apply statsCollector_Histogram.
  assert (hdrhistogram.TotalCount h = successes rs) as Hcount.
  { unfold h. rewrite fold_RecordValue_TotalCount.
    - rewrite hdrhistogram.TotalCount_New, latencies_length. lia.
    - rewrite hdrhistogram.LowestTrackableValue_New,
        hdrhistogram.HighestTrackableValue_New. exact Hlat.
    - rewrite hdrhistogram.TotalCount_New. lia.
    - rewrite hdrhistogram.TotalCount_New, latencies_length. lia. }
  split; [rewrite HH, Hcount, HS; reflexivity|]. split.
  - unfold GetStats. rewrite HT, HS, HF, HH, Hcount.
    apply Z.gtb_lt in Hpos. rewrite Hpos. reflexivity.
  - unfold GetOverallStats. rewrite HT, HS, HF. reflexivity.
Qed.

(** X4. An error signal touches nothing of the latency side: the success
    counter, the overall histogram, the current window and its histogram, the
    archive of windows and the channels are the same after [caseError]. *)
Theorem error_case_leaves_latency_state ps (now : time.Time) :
  SuccessOps (caseError ps now) = SuccessOps ps /\
  Histogram (caseError ps now) = Histogram ps /\
  currentWindowStartSecond (caseError ps now) = currentWindowStartSecond ps /\
  currentHistogram (caseError ps now) = currentHistogram ps /\
  windowedHistograms (caseError ps now) = windowedHistograms ps /\
  latencyChannel (caseError ps now) = latencyChannel ps /\
  errorChannel (caseError ps now) = errorChannel ps.
Proof.
  rewrite caseError_SuccessOps, caseError_Histogram,
    caseError_currentWindowStartSecond, caseError_currentHistogram,
    caseError_windowedHistograms, caseError_latencyChannel,
    caseError_errorChannel.
  repeat split.
Qed.

(** ** The archive of windows *)

Lemma caseLatency_archiveNonEmpty ps e :
  archiveNonEmpty ps -> archiveNonEmpty (caseLatency ps e).
Proof.
  intros Harch k h. rewrite caseLatency_windowedHistograms.
  destruct (closesWindow _ _); [|apply Harch].
  destruct (_ >? 0) eqn:Hcount; [|apply Harch].
  apply Z.gtb_lt in Hcount.
  destruct (decide (currentWindowStartSecond ps = k)) as [->|Hne].
  - rewrite lookup_insert_eq. intros [= <-]. exact Hcount.
  - rewrite lookup_insert_ne by exact Hne. apply Harch.
Qed.

Lemma statsCollector_archiveNonEmpty (now0 now1 : time.Time) rs :
  archiveNonEmpty (statsCollector (NewPerformanceStats now0 now1) rs).
Proof.
  apply (statsCollector_invariant archiveNonEmpty).
  - apply caseLatency_archiveNonEmpty.
  - intros ps now Harch k h. rewrite caseError_windowedHistograms.
    apply Harch.
  - intros k h. cbn [NewPerformanceStats windowedHistograms].
    rewrite lookup_empty. discriminate.
Qed.

(** X5. In every state the collector reaches from a new aggregator, each
    histogram of the archive holds at least one value.  So there
    [GetPreviousWindowStats] is the all-zero tuple exactly when no window is
    archived under [currentWindowStartSecond - 5], and
    [GetLastSecondPercentile] answers from the archive whenever it has an
    entry for [now - 1]. *)
Theorem archive_holds_nonempty_windows (now0 now1 : time.Time) rs :
  let ps := statsCollector (NewPerformanceStats now0 now1) rs in
  (forall k h,
      windowedHistograms ps !! k = Some h -> 0 < hdrhistogram.TotalCount h) /\
  (GetPreviousWindowStats ps = (0, 0, 0, 0, 0) <->
   windowedHistograms ps
     !! int64.sub (currentWindowStartSecond ps) MetricWindowSizeSeconds
   = None) /\
  (forall now p h,
      windowedHistograms ps !! int64.sub (time.Unix now) 1 = Some h ->
      GetLastSecondPercentile ps now p = hdrhistogram.ValueAtQuantile h p).
Proof.
  intros ps.
  pose proof (statsCollector_archiveNonEmpty now0 now1 rs) as Harch.
  fold ps in Harch. split; [exact Harch|]. split.
  - unfold GetPreviousWindowStats.
    destruct (windowedHistograms ps !! _) as [h|] eqn:Hkey; [|tauto].
    apply Harch in Hkey.
    destruct (hdrhistogram.TotalCount h =? 0) eqn:Hzero.
    + apply Z.eqb_eq in Hzero. lia.
    + split; [|discriminate]. intros [= Hcount _]. lia.
  - intros now p h Hkey. unfold GetLastSecondPercentile. rewrite Hkey.
    apply Harch, Z.gtb_lt in Hkey. rewrite Hkey. reflexivity.
Qed.

(** X6. Nothing is ever removed from the archive of windows: a key it holds
    is still there after the collector has processed any sequence. *)
Theorem archive_never_shrinks ps rs (k : Z) :
  is_Some (windowedHistograms ps !! k) ->
  is_Some (windowedHistograms (statsCollector ps rs) !! k).
Proof.
  revert ps. induction rs as [|[e|now|] rs IH]; intros ps Hk;
    cbn [statsCollector]; [exact Hk| | |exact Hk].
  - apply IH. rewrite caseLatency_windowedHistograms.
    destruct (closesWindow _ _); [|exact Hk].
    destruct (_ >? 0); [|exact Hk].
    destruct (decide (currentWindowStartSecond ps = k)) as [->|Hne].
    + rewrite lookup_insert_eq. eauto.
    + rewrite lookup_insert_ne by exact Hne. exact Hk.
  - apply IH. rewrite caseError_windowedHistograms. exact Hk.
Qed.

(** X7. After a latency event is processed, the current window starts less
    than [MetricWindowSizeSeconds] seconds before the event (in the program's
    arithmetic): the start is the event's own second when the event closed
    the previous window, and is unchanged otherwise. *)
Theorem event_lands_in_recent_window ps e :
  int64.sub (time.Unix (Timestamp e))
    (currentWindowStartSecond (caseLatency ps e))
  < MetricWindowSizeSeconds /\
  (currentWindowStartSecond (caseLatency ps e) = time.Unix (Timestamp e) \/
   currentWindowStartSecond (caseLatency ps e) = currentWindowStartSecond ps).
Proof.
  rewrite caseLatency_currentWindowStartSecond.
  destruct (closesWindow _ _) eqn:Hclose.
  - split; [|left; reflexivity].
    unfold int64.sub. rewrite Z.sub_diag. reflexivity.
  - split; [|right; reflexivity].
    unfold closesWindow in Hclose. rewrite Z.geb_leb in Hclose.
    apply Z.leb_gt, Hclose.
Qed.

(** X8. What [GetPreviousWindowStats] returns right after a latency event has
    closed a window that holds values.  When the event comes exactly
    [MetricWindowSizeSeconds] seconds after the start of that window, it
    returns the count, percentiles and maximum of the window just closed.
    When it comes later and nothing is archived [MetricWindowSizeSeconds]
    seconds before the event, it returns the all-zero tuple although a window
    was just archived. *)
Theorem previous_window_after_roll ps e :
  closesWindow ps (time.Unix (Timestamp e)) = true ->
  0 < hdrhistogram.TotalCount (currentHistogram ps) ->
  (int64.sub (time.Unix (Timestamp e)) MetricWindowSizeSeconds
   = currentWindowStartSecond ps ->
   GetPreviousWindowStats (caseLatency ps e) =
   (hdrhistogram.TotalCount (currentHistogram ps),
    hdrhistogram.ValueAtQuantile (currentHistogram ps) 50%float,
    hdrhistogram.ValueAtQuantile (currentHistogram ps) 95%float,
    hdrhistogram.ValueAtQuantile (currentHistogram ps) 99%float,
    hdrhistogram.Max (currentHistogram ps))) /\
  (int64.sub (time.Unix (Timestamp e)) MetricWindowSizeSeconds
   <> currentWindowStartSecond ps ->
   windowedHistograms ps
     !! int64.sub (time.Unix (Timestamp e)) MetricWindowSizeSeconds = None ->
   GetPreviousWindowStats (caseLatency ps e) = (0, 0, 0, 0, 0)).
Proof.
  intros Hclose Hcount. unfold GetPreviousWindowStats.
  rewrite caseLatency_currentWindowStartSecond, caseLatency_windowedHistograms,
    Hclose.
  assert ((hdrhistogram.TotalCount (currentHistogram ps) >? 0) = true) as ->
    by apply Z.gtb_lt, Hcount.
  split.
  - intros ->. rewrite lookup_insert_eq.
    assert ((hdrhistogram.TotalCount (currentHistogram ps) =? 0) = false) as ->
      by (apply Z.eqb_neq; lia).
    reflexivity.
  - intros Hgap Hnone. rewrite lookup_insert_ne by congruence.
    rewrite Hnone. reflexivity.
Qed.

(** ** The per-second maps, continued *)

(** X9. The clean-up loop does not depend on the order in which [range]
    yields the keys: on two enumerations of the same keys it produces the
    same state. *)
Theorem cleanup_order_independent (c : Z) (keys keys' : list Z) ps :
  keys ≡ₚ keys' -> evictLoop c keys ps = evictLoop c keys' ps.
Proof.
  intros Hperm.
  assert (forall k, bool_decide (k ∈ keys) = bool_decide (k ∈ keys')) as Hin.
  { intros k. apply bool_decide_ext. rewrite Hperm. reflexivity. }
  rewrite (evictLoop_shape c keys ps), (evictLoop_shape c keys' ps).
  f_equal; [|f_equal].
  - apply map_eq. intros k. rewrite !evictLoop_perSecondErrors, Hin.
    reflexivity.
  - apply map_eq. intros k. rewrite !evictLoop_perSecondOps, Hin.
    reflexivity.
Qed.

(** X10. What the clean-up loop computes: the operations map keeps exactly
    its entries that are at most 60 seconds older than [currentSecond] (in
    the program's arithmetic); so does the errors map when the two maps have
    the same keys; and every other field is left as it was. *)
Theorem cleanup_keeps_recent_seconds (c : Z) ps :
  perSecondOps (cleanupOldSeconds c ps) =
    filter (fun kv => int64.sub c kv.1 <= 60) (perSecondOps ps) /\
  (same_keys ps ->
   perSecondErrors (cleanupOldSeconds c ps) =
     filter (fun kv => int64.sub c kv.1 <= 60) (perSecondErrors ps)) /\
  sameAggregate
    (set_perSecondErrors (perSecondErrors ps)
       (set_perSecondOps (perSecondOps ps) (cleanupOldSeconds c ps)))
    ps.
Proof.
  assert (forall k, (int64.sub c k >? 60) = false <-> int64.sub c k <= 60)
    as Hage by (intros k; rewrite Z.gtb_ltb; apply Z.ltb_ge).
  split; [|split].
  - apply map_eq. intros k. apply option_eq. intros v.
    rewrite cleanupOldSeconds_perSecondOps, map_lookup_filter_Some.
    cbn [fst]. rewrite <- Hage.
    destruct (int64.sub c k >? 60); [|tauto].
    split; [discriminate|]. intros [_ [=]].
  - intros Hkeys. apply map_eq. intros k. apply option_eq. intros v.
    rewrite cleanupOldSeconds_perSecondErrors, map_lookup_filter_Some.
    cbn [fst]. rewrite <- Hage.
    destruct (int64.sub c k >? 60).
    + rewrite andb_true_r. case_bool_decide as Hin.
      * split; [discriminate|]. intros [_ [=]].
      * split; [|intros [_ [=]]]. intros Hv. exfalso. apply Hin.
        apply Hkeys. eauto.
    + rewrite andb_false_r. tauto.
  - rewrite cleanupOldSeconds_shape. unfold sameAggregate. fields.
    repeat split.
Qed.

(** Events of the second [lastSecond] only add to the accumulators. *)
Lemma statsCollector_same_second (s : Z) rs : forall ps (a b : Z),
  lastSecond ps = s ->
  Forall (inSecond s) rs ->
  currentSecondOps ps = int64.wrap a ->
  currentSecondErrors ps = int64.wrap b ->
  lastSecond (statsCollector ps rs) = s /\
  currentSecondOps (statsCollector ps rs) = int64.wrap (a + successes rs) /\
  currentSecondErrors (statsCollector ps rs) = int64.wrap (b + failures rs) /\
  perSecondOps (statsCollector ps rs) = perSecondOps ps /\
  perSecondErrors (statsCollector ps rs) = perSecondErrors ps.
Proof.
  induction rs as [|r rs IH]; intros ps a b Hlast Hall Ha Hb.
  - cbn [statsCollector successes failures]. rewrite !Z.add_0_r.
    repeat split; assumption.
  - apply Forall_cons in Hall as [Hr Hall].
    destruct r as [e|now|];
      cbn [statsCollector successes failures inSecond] in *;
      [| |destruct Hr].
    + assert (negb (time.Unix (Timestamp e) =? lastSecond ps) = false)
        as Hsame by (rewrite Hr, Hlast, Z.eqb_refl; reflexivity).
      destruct (IH (caseLatency ps e) (a + 1) b)
        as (Hl & Ho & He & Hmo & Hme).
      * rewrite caseLatency_lastSecond. exact Hr.
      * exact Hall.
      * rewrite caseLatency_currentSecondOps, Hsame, Ha.
        unfold int64.incr. apply int64_wrap_add_l.
      * rewrite caseLatency_currentSecondErrors, Hsame. exact Hb.
      * split; [exact Hl|]. split; [rewrite Ho; f_equal; lia|].
        split; [exact He|]. split.
        -- rewrite Hmo. apply map_eq. intros k.
           rewrite caseLatency_perSecondOps, Hsame. reflexivity.
        -- rewrite Hme. apply map_eq. intros k.
           rewrite caseLatency_perSecondErrors, Hsame. reflexivity.
    + assert (negb (time.Unix now =? lastSecond ps) = false)
        as Hsame by (rewrite Hr, Hlast, Z.eqb_refl; reflexivity).
      destruct (IH (caseError ps now) a (b + 1))
        as (Hl & Ho & He & Hmo & Hme).
      * rewrite caseError_lastSecond. exact Hr.
      * exact Hall.
      * rewrite caseError_currentSecondOps, Hsame. exact Ha.
      * rewrite caseError_currentSecondErrors, Hsame, Hb.
        unfold int64.incr. apply int64_wrap_add_l.
      * split; [exact Hl|]. split; [exact Ho|].
        split; [rewrite He; f_equal; lia|]. split.
        -- rewrite Hmo, caseError_perSecondOps, Hsame. reflexivity.
        -- rewrite Hme, caseError_perSecondErrors, Hsame. reflexivity.
Qed.

(** The item that ends second [lastSecond] stores positive accumulators
    under that second, in both maps. *)
Lemma iteration_stores_second (s : Z) ps (r : Received) :
  lastSecond ps = s ->
  endsSecond s r ->
  0 < currentSecondOps ps \/ 0 < currentSecondErrors ps ->
  perSecondOps (iteration ps r) !! s = Some (currentSecondOps ps) /\
  perSecondErrors (iteration ps r) !! s = Some (currentSecondErrors ps).
Proof.
  intros Hlast Hends Hpos.
  assert ((currentSecondOps ps >? 0) || (currentSecondErrors ps >? 0) = true)
    as Hsave.
  { apply orb_true_iff. rewrite !Z.gtb_lt. exact Hpos. }
  assert (savedOps ps !! s = Some (currentSecondOps ps)) as Hso
    by (unfold savedOps; rewrite Hsave, Hlast; apply lookup_insert_eq).
  assert (savedErrors ps !! s = Some (currentSecondErrors ps)) as Hse
    by (unfold savedErrors; rewrite Hsave, Hlast; apply lookup_insert_eq).
  destruct r as [e|now|]; cbn [iteration endsSecond] in *; [| |destruct Hends].
  - destruct Hends as [Hnew Hage].
    assert (negb (time.Unix (Timestamp e) =? lastSecond ps) = true) as Hsec
      by (rewrite Hlast; apply negb_true_iff, Z.eqb_neq, Hnew).
    assert ((int64.sub (time.Unix (Timestamp e)) s >? 60) = false) as Hkeep
      by (rewrite Z.gtb_ltb; apply Z.ltb_ge, Hage).
    rewrite caseLatency_perSecondOps, caseLatency_perSecondErrors, Hsec,
      Hkeep, andb_false_r.
    split; assumption.
  - assert (negb (time.Unix now =? lastSecond ps) = true) as Hsec
      by (rewrite Hlast; apply negb_true_iff, Z.eqb_neq, Hends).
    rewrite caseError_perSecondOps, caseError_perSecondErrors, Hsec.
    split; assumption.
Qed.

(** X11. The counts of a finished second.  Let the accumulators be zero and
    [lastSecond] be [s] (as on a new aggregator created in second [s]); let
    the collector process items that all carry second [s], at least one,
    and then one item of another second (for a latency event, at most 60
    seconds later).  A call of [GetOpsLastSecond] in second [s + 1] then
    returns the number of success events of second [s], and
    [GetErrorsLastSecond] the number of its failure events. *)
Theorem finished_second_counts (s : Z) ps rs (r : Received)
    (now : time.Time) :
  lastSecond ps = s ->
  currentSecondOps ps = 0 ->
  currentSecondErrors ps = 0 ->
  Forall (inSecond s) rs ->
  endsSecond s r ->
  0 < successes rs + failures rs ->
  successes rs + failures rs <= int64.MaxInt64 ->
  int64.sub (time.Unix now) 1 = s ->
  GetOpsLastSecond (iteration (statsCollector ps rs) r) now = successes rs /\
  GetErrorsLastSecond (iteration (statsCollector ps rs) r) now = failures rs.
Proof.
  intros Hlast Hops Herrs Hall Hends Hsome Hfit Hnow.
  pose proof (successes_nonneg rs) as HN.
  pose proof (failures_nonneg rs) as HM.
  destruct (statsCollector_same_second s rs ps 0 0 Hlast Hall)
    as (Hl & Ho & He & _); [rewrite Hops; reflexivity
                           |rewrite Herrs; reflexivity|].
  rewrite int64_wrap_count in Ho, He by lia.
  destruct (iteration_stores_second s (statsCollector ps rs) r Hl Hends)
    as [Hso Hse]; [rewrite Ho, He; lia|].
  unfold GetOpsLastSecond, GetErrorsLastSecond.
  rewrite Hnow, Hso, Hse, Ho, He. split; reflexivity.
Qed.

(** X12. A latency event in a new second removes from the operations map
    every key more than 60 seconds older than the event, and from the errors
    map as well when the two maps had the same keys. *)
Theorem latency_event_evicts_old_seconds ps e (k : Z) :
  time.Unix (Timestamp e) <> lastSecond ps ->
  60 < int64.sub (time.Unix (Timestamp e)) k ->
  perSecondOps (caseLatency ps e) !! k = None /\
  (same_keys ps -> perSecondErrors (caseLatency ps e) !! k = None).
Proof.
  intros Hnew%Z.eqb_neq Hold%Z.gtb_lt.
  rewrite caseLatency_perSecondOps, caseLatency_perSecondErrors, Hnew, Hold.
  cbn [negb]. split; [reflexivity|]. intros Hkeys.
  rewrite andb_true_r. case_bool_decide as Hin; [reflexivity|].
  apply eq_None_not_Some. intros Herr. apply Hin.
  apply (savedOps_savedErrors_keys ps k (Hkeys k)), Herr.
Qed.

Lemma latency_run_lastSecond (events : list LatencyEvent) e : forall ps,
  lastSecond (statsCollector ps (map RecvLatency (events ++ [e])))
  = time.Unix (Timestamp e).
Proof.
  induction events as [|e0 events IH]; intros ps;
    cbn [app map statsCollector].
  - apply caseLatency_lastSecond.
  - apply IH.
Qed.

(** X13. When only latency events are processed, from a new aggregator, the
    per-second maps are a rolling window: after each event, whose second
    [lastSecond] then holds, no key of either map is more than 60 seconds
    older than that event. *)
Theorem rolling_window_of_latency_events (now0 now1 : time.Time)
    (events : list LatencyEvent) (e : LatencyEvent) (k : Z) :
  let ps :=
    statsCollector (NewPerformanceStats now0 now1)
      (map RecvLatency (events ++ [e])) in
  is_Some (perSecondOps ps !! k) \/ is_Some (perSecondErrors ps !! k) ->
  int64.sub (time.Unix (Timestamp e)) k <= 60.
Proof.
  intros ps Hkey.
  destruct (latency_only_invariants (events ++ [e])
              (NewPerformanceStats now0 now1)) as [Hroll Hkeys].
  { split.
    - intros k'. cbn [NewPerformanceStats perSecondOps].
      rewrite lookup_empty. intros []%is_Some_None.
    - intros k'. cbn [NewPerformanceStats perSecondOps perSecondErrors].
      rewrite !lookup_empty. reflexivity. }
  fold ps in Hroll, Hkeys.
  rewrite <- (latency_run_lastSecond events e (NewPerformanceStats now0 now1)).
  apply Hroll. destruct Hkey as [Hops|Herr]; [exact Hops|].
  apply Hkeys, Herr.
Qed.

(** X14. The error case only adds to the per-second maps: a key that either
    map holds is still in it after an error signal is processed, whatever
    its age. *)
Theorem error_case_keeps_every_second ps (now : time.Time) (k : Z) :
  (is_Some (perSecondOps ps !! k) ->
   is_Some (perSecondOps (caseError ps now) !! k)) /\
  (is_Some (perSecondErrors ps !! k) ->
   is_Some (perSecondErrors (caseError ps now) !! k)).
Proof.
  rewrite caseError_perSecondOps, caseError_perSecondErrors.
  unfold savedOps, savedErrors.
  destruct (negb _); [|tauto]. destruct (_ || _); [|tauto].
  destruct (decide (lastSecond ps = k)) as [->|Hne].
  - rewrite !lookup_insert_eq. split; eauto.
  - rewrite !lookup_insert_ne by exact Hne. tauto.
Qed.

(** ** Producers, mailboxes and shutdown *)

Lemma caseLatency_done ps e : done (caseLatency ps e) = done ps.
Proof. unfold caseLatency. cbv zeta. case_ifs; frame. Qed.

Lemma caseError_done ps now : done (caseError ps now) = done ps.
Proof. unfold caseError. cbv zeta. case_ifs; frame. Qed.

Lemma RecordLatency_sameAggregate ps (latencyMicros : Z) (now : time.Time) :
  sameAggregate (RecordLatency ps latencyMicros now) ps.
Proof.
  unfold RecordLatency. destruct (try_send _ _) as [c [|]].
  - apply set_latencyChannel_sameAggregate.
  - apply sameAggregate_refl.
Qed.

Lemma RecordError_sameAggregate ps : sameAggregate (RecordError ps) ps.
Proof.
  unfold RecordError. destruct (try_send _ _) as [c [|]].
  - apply set_errorChannel_sameAggregate.
  - apply sameAggregate_refl.
Qed.

Lemma Close_sameAggregate ps ps' :
  Close ps = Some ps' -> sameAggregate ps' ps /\ closed (done ps') = true.
Proof.
  unfold Close. destruct (closed (done ps)); [discriminate|].
  intros [= <-]. split; [apply set_done_sameAggregate|reflexivity].
Qed.

(** X15. The entry points called from outside the collector never write the
    aggregate: after [RecordLatency], [RecordError] or a successful [Close]
    every field but the channels is as before, whether or not the event was
    queued; and [Close] fails on a handle that is already closed. *)
Theorem callers_leave_aggregate ps (latencyMicros : Z) (now : time.Time) :
  sameAggregate (RecordLatency ps latencyMicros now) ps /\
  sameAggregate (RecordError ps) ps /\
  (forall ps', Close ps = Some ps' ->
               sameAggregate ps' ps /\ Close ps' = None).
Proof.
  split; [apply RecordLatency_sameAggregate|].
  split; [apply RecordError_sameAggregate|].
  intros ps' Hclose. apply Close_sameAggregate in Hclose as [Hagg Hclosed].
  split; [exact Hagg|]. unfold Close. rewrite Hclosed. reflexivity.
Qed.

(** X16. Send, then receive.  On an empty latency mailbox with room, the
    event of a [RecordLatency] call is the one the collector takes next: the
    loop processes that latency with the time stamp of the call, and the
    mailbox is empty again.  For [RecordError] the same holds, the second
    being read by the collector when it takes the signal. *)
Theorem record_then_collect ps (latencyMicros : Z) (sent taken : time.Time) :
  (buf (latencyChannel ps) = [] -> 0 < cap (latencyChannel ps) ->
   exists ps',
     step (mkWorld (RecordLatency ps latencyMicros sent) true) CollectLatency
       = Some (mkWorld ps' true) /\
     sameAggregate ps' (caseLatency ps (mkLatencyEvent latencyMicros sent)) /\
     buf (latencyChannel ps') = []) /\
  (buf (errorChannel ps) = [] -> 0 < cap (errorChannel ps) ->
   exists ps',
     step (mkWorld (RecordError ps) true) (CollectError taken)
       = Some (mkWorld ps' true) /\
     sameAggregate ps' (caseError ps taken) /\
     buf (errorChannel ps') = []).
Proof.
  split.
  - intros Hempty Hcap. eexists. split; [|split].
    + cbn [step stats collectorRunning].
      unfold RecordLatency, try_send, chan_len.
      rewrite Hempty. change (Z.of_nat (length [])) with 0.
      apply Z.ltb_lt in Hcap. rewrite Hcap.
      unfold recv. fields. cbn [buf app]. reflexivity.
    + apply caseLatency_sameAggregate.
      eapply sameAggregate_trans; apply set_latencyChannel_sameAggregate.
    + rewrite caseLatency_latencyChannel. reflexivity.
  - intros Hempty Hcap. eexists. split; [|split].
    + cbn [step stats collectorRunning].
      unfold RecordError, try_send, chan_len.
      rewrite Hempty. change (Z.of_nat (length [])) with 0.
      apply Z.ltb_lt in Hcap. rewrite Hcap.
      unfold recv. fields. cbn [buf app]. reflexivity.
    + apply caseError_sameAggregate.
      eapply sameAggregate_trans; apply set_errorChannel_sameAggregate.
    + rewrite caseError_errorChannel. reflexivity.
Qed.

Lemma calledLatencies_nonneg (acts : list Action) : 0 <= calledLatencies acts.
Proof.
  induction acts as [|[v now| | | |now|] acts IH]; cbn [calledLatencies]; lia.
Qed.

Lemma calledErrors_nonneg (acts : list Action) : 0 <= calledErrors acts.
Proof.
  induction acts as [|[v now| | | |now|] acts IH]; cbn [calledErrors]; lia.
Qed.

(** What a step does to the two mailboxes. *)
Lemma step_mailboxes (w w' : World) (a : Action) :
  step w a = Some w' ->
  let lc := latencyChannel (stats w) in
  let ec := errorChannel (stats w) in
  let lc' := latencyChannel (stats w') in
  let ec' := errorChannel (stats w') in
  cap lc' = cap lc /\ cap ec' = cap ec /\
  match a with
  | CallRecordLatency _ _ =>
      chan_len lc' = (if chan_len lc <? cap lc then chan_len lc + 1
                      else chan_len lc) /\
      chan_len ec' = chan_len ec
  | CallRecordError =>
      chan_len lc' = chan_len lc /\
      chan_len ec' = (if chan_len ec <? cap ec then chan_len ec + 1
                      else chan_len ec)
  | CollectLatency => chan_len lc' = chan_len lc - 1 /\ chan_len ec' = chan_len ec
  | CollectError _ => chan_len lc' = chan_len lc /\ chan_len ec' = chan_len ec - 1
  | _ => chan_len lc' = chan_len lc /\ chan_len ec' = chan_len ec
  end.
Proof.
  intros Hstep. destruct a as [v now| | | |now|]; cbn [step] in Hstep.
  - injection Hstep as <-. cbn [stats]. unfold RecordLatency, try_send.
    destruct (chan_len _ <? cap _); fields; repeat split.
    unfold chan_len. cbn [buf]. rewrite length_app. cbn [length]. lia.
  - injection Hstep as <-. cbn [stats]. unfold RecordError, try_send.
    destruct (chan_len _ <? cap _); fields; repeat split.
    unfold chan_len. cbn [buf]. rewrite length_app. cbn [length]. lia.
  - unfold Close in Hstep. destruct (closed _); [discriminate|].
    injection Hstep as <-. cbn [stats]. fields. repeat split.
  - destruct (collectorRunning w); [|discriminate].
    unfold recv in Hstep.
    destruct (buf (latencyChannel (stats w))) as [|event rest] eqn:Hbuf;
      [discriminate|].
    injection Hstep as <-. cbn [stats].
    rewrite caseLatency_latencyChannel, caseLatency_errorChannel. fields.
    repeat split. unfold chan_len. rewrite Hbuf. cbn [buf length]. lia.
  - destruct (collectorRunning w); [|discriminate].
    unfold recv in Hstep.
    destruct (buf (errorChannel (stats w))) as [|u rest] eqn:Hbuf;
      [discriminate|].
    injection Hstep as <-. cbn [stats].
    rewrite caseError_latencyChannel, caseError_errorChannel. fields.
    repeat split. unfold chan_len. rewrite Hbuf. cbn [buf length]. lia.
  - destruct (_ && _); [|discriminate]. injection Hstep as <-.
    repeat split.
Qed.

Lemma steps_mailboxes (acts : list Action) : forall (w w' : World),
  steps w acts = Some w' ->
  let lc := latencyChannel (stats w) in
  let ec := errorChannel (stats w) in
  let lc' := latencyChannel (stats w') in
  let ec' := errorChannel (stats w') in
  (chan_len lc' + collectedLatencies acts
     <= chan_len lc + calledLatencies acts /\
   (chan_len lc + calledLatencies acts <= cap lc ->
    chan_len lc' + collectedLatencies acts
      = chan_len lc + calledLatencies acts)) /\
  (chan_len ec' + collectedErrors acts <= chan_len ec + calledErrors acts /\
   (chan_len ec + calledErrors acts <= cap ec ->
    chan_len ec' + collectedErrors acts = chan_len ec + calledErrors acts)).
Proof.
  induction acts as [|a acts IH]; intros w w' Hsteps; cbn [steps] in Hsteps.
  - injection Hsteps as <-.
    cbn [collectedLatencies calledLatencies collectedErrors calledErrors].
    cbv zeta. lia.
  - destruct (step w a) as [w1|] eqn:Hstep; [|discriminate].
    pose proof (step_mailboxes w w1 a Hstep) as (Hcl & Hce & Hone).
    pose proof (IH w1 w' Hsteps) as [[Hl Hleq] [He Heeq]].
    pose proof (calledLatencies_nonneg acts) as HcL.
    pose proof (calledErrors_nonneg acts) as HcE.
    cbv zeta in *. rewrite Hcl in Hleq. rewrite Hce in Heeq.
    destruct a as [v now| | | |now|];
      cbn [collectedLatencies calledLatencies collectedErrors calledErrors];
      destruct Hone as [HoneL HoneE].
    + destruct (chan_len (latencyChannel (stats w))
                <? cap (latencyChannel (stats w))) eqn:Hroom;
        [apply Z.ltb_lt in Hroom|apply Z.ltb_ge in Hroom]; lia.
    + destruct (chan_len (errorChannel (stats w))
                <? cap (errorChannel (stats w))) eqn:Hroom;
        [apply Z.ltb_lt in Hroom|apply Z.ltb_ge in Hroom]; lia.
    + lia.
    + lia.
    + lia.
    + lia.
Qed.

(** X17. Nothing is invented and, below capacity, nothing is lost.  In every
    state the system reaches from a new aggregator, the events still queued
    plus the events the collector has taken are at most the calls made; and
    they are exactly the calls made when the total number of
    [RecordLatency] calls is at most 1000000 (of [RecordError] calls, at
    most 100). *)
Theorem mailbox_conservation (now0 now1 : time.Time) (acts : list Action)
    (w : World) :
  steps (create now0 now1) acts = Some w ->
  (chan_len (latencyChannel (stats w)) + collectedLatencies acts
     <= calledLatencies acts /\
   (calledLatencies acts <= 1000000 ->
    chan_len (latencyChannel (stats w)) + collectedLatencies acts
      = calledLatencies acts)) /\
  (chan_len (errorChannel (stats w)) + collectedErrors acts
     <= calledErrors acts /\
   (calledErrors acts <= 100 ->
    chan_len (errorChannel (stats w)) + collectedErrors acts
      = calledErrors acts)).
Proof.
  intros Hsteps.
  pose proof (steps_mailboxes acts _ _ Hsteps) as Hbox.
  cbv zeta in Hbox. cbn [create stats] in Hbox.
  cbn [NewPerformanceStats latencyChannel errorChannel] in Hbox.
  unfold make_chan, chan_len in Hbox. cbn [buf cap length Z.of_nat] in Hbox.
  rewrite !Z.add_0_l in Hbox. exact Hbox.
Qed.

(** X18. Once [statsCollector] has returned, the aggregate is frozen:
    whatever steps follow, none of them is an iteration of the loop and every
    field but the channels keeps its value. *)
Theorem returned_collector_freezes_aggregate (acts : list Action) :
  forall (w w' : World),
    collectorRunning w = false ->
    steps w acts = Some w' ->
    sameAggregate (stats w') (stats w) /\
    collectorRunning w' = false /\
    collectedLatencies acts = 0 /\ collectedErrors acts = 0.
Proof.
  induction acts as [|a acts IH]; intros w w' Hstopped Hsteps;
    cbn [steps] in Hsteps.
  - injection Hsteps as <-. split; [apply sameAggregate_refl|].
    split; [exact Hstopped|]. split; reflexivity.
  - destruct (step w a) as [w1|] eqn:Hstep; [|discriminate].
    assert (sameAggregate (stats w1) (stats w) /\
            collectorRunning w1 = false /\
            collectedLatencies (a :: acts) = collectedLatencies acts /\
            collectedErrors (a :: acts) = collectedErrors acts)
      as (Hagg & Hstop1 & HcL & HcE).
    { destruct a as [v now| | | |now|]; cbn [step] in Hstep;
        rewrite ?Hstopped in Hstep; cbn [andb] in Hstep; try discriminate;
        cbn [collectedLatencies collectedErrors].
      - injection Hstep as <-. cbn [stats collectorRunning].
        split; [apply RecordLatency_sameAggregate|auto].
      - injection Hstep as <-. cbn [stats collectorRunning].
        split; [apply RecordError_sameAggregate|auto].
      - destruct (Close (stats w)) as [ps'|] eqn:Hclose; [|discriminate].
        injection Hstep as <-. cbn [stats collectorRunning].
        split; [|auto]. apply Close_sameAggregate, Hclose. }
    destruct (IH w1 w' Hstop1 Hsteps) as (Hagg' & Hstop' & HL & HE).
    split; [eapply sameAggregate_trans; eassumption|].
    split; [exact Hstop'|]. rewrite HcL, HcE. split; assumption.
Qed.

Lemma calledCloses_nonneg (acts : list Action) : 0 <= calledCloses acts.
Proof.
  induction acts as [|[v now| | | |now|] acts IH]; cbn [calledCloses]; lia.
Qed.

(** What a step does to [done] and to the collector's goroutine. *)
Lemma step_done (w w' : World) (a : Action) :
  step w a = Some w' ->
  match a with
  | CallClose =>
      closed (done (stats w)) = false /\ closed (done (stats w')) = true /\
      collectorRunning w' = collectorRunning w
  | CollectDone =>
      closed (done (stats w)) = true /\ done (stats w') = done (stats w) /\
      collectorRunning w' = false
  | _ =>
      done (stats w') = done (stats w) /\
      collectorRunning w' = collectorRunning w
  end.
Proof.
  intros Hstep. destruct a as [v now| | | |now|]; cbn [step] in Hstep.
  - injection Hstep as <-. cbn [stats collectorRunning]. split; [|reflexivity].
    unfold RecordLatency. destruct (try_send _ _) as [c [|]]; reflexivity.
  - injection Hstep as <-. cbn [stats collectorRunning]. split; [|reflexivity].
    unfold RecordError. destruct (try_send _ _) as [c [|]]; reflexivity.
  - unfold Close in Hstep.
    destruct (closed (done (stats w))) eqn:Hclosed; [discriminate|].
    injection Hstep as <-. repeat split.
  - destruct (collectorRunning w) eqn:Hrun; [|discriminate].
    destruct (recv _) as [[event c]|]; [|discriminate].
    injection Hstep as <-. cbn [stats collectorRunning].
    rewrite caseLatency_done. split; reflexivity.
  - destruct (collectorRunning w) eqn:Hrun; [|discriminate].
    destruct (recv _) as [[u c]|]; [|discriminate].
    injection Hstep as <-. cbn [stats collectorRunning].
    rewrite caseError_done. split; reflexivity.
  - destruct (collectorRunning w); [|discriminate]. cbn [andb] in Hstep.
    destruct (closed (done (stats w))); [|discriminate].
    injection Hstep as <-. repeat split.
Qed.

Lemma steps_done (acts : list Action) : forall (w w' : World),
  steps w acts = Some w' ->
  (closed (done (stats w)) = true ->
   calledCloses acts = 0 /\ closed (done (stats w')) = true) /\
  (closed (done (stats w)) = false ->
   calledCloses acts <= 1 /\
   (closed (done (stats w')) = true <-> calledCloses acts = 1)) /\
  (collectorRunning w' = false ->
   collectorRunning w = false \/ closed (done (stats w')) = true).
Proof.
  induction acts as [|a acts IH]; intros w w' Hsteps; cbn [steps] in Hsteps.
  - injection Hsteps as <-. cbn [calledCloses]. split; [auto|].
    split; [|auto]. intros Hopen. split; [lia|]. rewrite Hopen.
    split; [discriminate|lia].
  - destruct (step w a) as [w1|] eqn:Hstep; [|discriminate].
    pose proof (step_done w w1 a Hstep) as Hone.
    destruct (IH w1 w' Hsteps) as (Hclosed & Hopen & Hrun).
    pose proof (calledCloses_nonneg acts) as Hnn.
    assert (closed (done (stats w1)) = true ->
            closed (done (stats w')) = true) as Hkeep
      by (intros H1; apply Hclosed, H1).
    destruct a as [v now| | | |now|]; cbn [calledCloses].
    + destruct Hone as [Hd Hr]. rewrite Hd, Hr in *. auto.
    + destruct Hone as [Hd Hr]. rewrite Hd, Hr in *. auto.
    + destruct Hone as (Hwas & Hnow & Hr).
      destruct (Hclosed Hnow) as [Hzero Hend]. rewrite Hr in Hrun.
      split; [rewrite Hwas; discriminate|]. split; [|exact Hrun].
      intros _. rewrite Hzero, Hend. split; [lia|]. split; auto.
    + destruct Hone as [Hd Hr]. rewrite Hd, Hr in *. auto.
    + destruct Hone as [Hd Hr]. rewrite Hd, Hr in *. auto.
    + destruct Hone as (Hwas & Hd & Hr). rewrite Hd in *.
      split; [exact Hclosed|]. split; [rewrite Hwas; discriminate|].
      intros _. right. apply Hclosed, Hwas.
Qed.

(** X19. Shutdown.  In every run of the system from a new aggregator,
    [Close] is called at most once (a second call panics); [done] is closed
    exactly when it has been called; and the collector's loop has returned
    only if it has been called. *)
Theorem close_at_most_once (now0 now1 : time.Time) (acts : list Action)
    (w : World) :
  steps (create now0 now1) acts = Some w ->
  calledCloses acts <= 1 /\
  (closed (done (stats w)) = true <-> calledCloses acts = 1) /\
  (collectorRunning w = false -> calledCloses acts = 1).
Proof.
  intros Hsteps.
  destruct (steps_done acts _ _ Hsteps) as (_ & Hopen & Hrun).
  destruct Hopen as [Hle Hiff]; [reflexivity|].
  split; [exact Hle|]. split; [exact Hiff|].
  intros Hstopped. apply Hiff.
  destruct (Hrun Hstopped) as [Hnever|Hclosed]; [discriminate|exact Hclosed].
Qed.

(** X20. The counters of the handle in any state of the system, whatever the
    interleaving of producer calls and collector iterations: [SuccessOps] is
    the number of latency events the collector has taken from its mailbox,
    [FailedOps] the number of error signals, [TotalOps] their sum (the
    numbers fitting an [int64]). *)
Theorem system_counters (now0 now1 : time.Time) (acts : list Action)
    (w : World) :
  steps (create now0 now1) acts = Some w ->
  collectedLatencies acts + collectedErrors acts <= int64.MaxInt64 ->
  TotalOps (stats w) = collectedLatencies acts + collectedErrors acts /\
  SuccessOps (stats w) = collectedLatencies acts /\
  FailedOps (stats w) = collectedErrors acts.
Proof.
  intros Hsteps Hfit.
  destruct (steps_statsCollector acts _ _ _ Hsteps
              (sameAggregate_refl (NewPerformanceStats now0 now1)))
    as (rs & (HT & HS & HF & _) & HN & HM).
  cbn [create stats] in HT, HS, HF. rewrite <- HN, <- HM in *.
  pose proof (successes_nonneg rs) as HN'.
  pose proof (failures_nonneg rs) as HM'.
  rewrite HT, HS, HF.
  rewrite (statsCollector_TotalOps rs _ 0),
    (statsCollector_SuccessOps rs _ 0),
    (statsCollector_FailedOps rs _ 0) by reflexivity.
  rewrite !int64_wrap_count by lia.
  repeat split.
Qed.

(** X21. The invariants of the collector hold in every state of the system,
    also while producers are queueing events: [TotalOps] is
    [SuccessOps + FailedOps] (the program's addition), the two per-second
    maps have the same keys, and every archived histogram holds at least one
    value. *)
Theorem system_invariants (now0 now1 : time.Time) (acts : list Action)
    (w : World) :
  steps (create now0 now1) acts = Some w ->
  TotalOps (stats w) = int64.add (SuccessOps (stats w)) (FailedOps (stats w))
  /\ dom (perSecondOps (stats w)) = dom (perSecondErrors (stats w))
  /\ archiveNonEmpty (stats w).
Proof.
  intros Hsteps.
  destruct (steps_statsCollector acts _ _ _ Hsteps
              (sameAggregate_refl (NewPerformanceStats now0 now1)))
    as (rs & (HT & HS & HF & _ & _ & _ & _ & Harch & Ho & He & _) & _).
  cbn [create stats] in HT, HS, HF, Harch, Ho, He.
  unfold archiveNonEmpty. rewrite HT, HS, HF, Ho, He, Harch.
  split; [apply statsCollector_counters_sum|]. split.
  - apply set_eq. intros k. rewrite !elem_of_dom.
    apply statsCollector_same_keys.
  - apply statsCollector_archiveNonEmpty.
Qed.

End Properties.

(** * Concrete runs

    The statements above at explicit inputs, on the reference histogram. *)

(** The specification's scenario: latencies 100, 200 and 300 recorded as
    successes in the same second. *)
Example scenario_three_latencies :
  GetStats
    (statsCollector (newAt 1700000000)
       [RecvLatency (mkLatencyEvent 100 (atSecond 1700000000));
        RecvLatency (mkLatencyEvent 200 (atSecond 1700000000));
        RecvLatency (mkLatencyEvent 300 (atSecond 1700000000))])
    1%float
  = (3, 3, 0, 3%float, 200, 300, 300).
Proof. vm_compute. reflexivity. Qed.

Lemma drained_counters_witness :
  successes
    [RecvLatency (mkLatencyEvent 100 (atSecond 7)); RecvError (atSecond 7);
     RecvLatency (mkLatencyEvent 250 (atSecond 8))]
  + failures
      [RecvLatency (mkLatencyEvent 100 (atSecond 7)); RecvError (atSecond 7);
       RecvLatency (mkLatencyEvent 250 (atSecond 8))]
  <= int64.MaxInt64 /\
  TotalOps
    (statsCollector (newAt 7)
       [RecvLatency (mkLatencyEvent 100 (atSecond 7)); RecvError (atSecond 7);
        RecvLatency (mkLatencyEvent 250 (atSecond 8))]) = 3.
Proof.
  split.
  - vm_compute. discriminate.
  - apply (drained_counters (Hdr := exact.capability) (atSecond 7) (atSecond 7)
             [RecvLatency (mkLatencyEvent 100 (atSecond 7));
              RecvError (atSecond 7);
              RecvLatency (mkLatencyEvent 250 (atSecond 8))]).
    vm_compute. discriminate.
Defined.

Lemma counters_sum_invariant_witness :
  successes
    [RecvLatency (mkLatencyEvent 100 (atSecond 7)); RecvError (atSecond 7)]
  + failures
      [RecvLatency (mkLatencyEvent 100 (atSecond 7)); RecvError (atSecond 7)]
  <= int64.MaxInt64 /\
  TotalOps
    (statsCollector (newAt 7)
       [RecvLatency (mkLatencyEvent 100 (atSecond 7)); RecvError (atSecond 7)])
  = SuccessOps
      (statsCollector (newAt 7)
         [RecvLatency (mkLatencyEvent 100 (atSecond 7));
          RecvError (atSecond 7)])
    + FailedOps
        (statsCollector (newAt 7)
           [RecvLatency (mkLatencyEvent 100 (atSecond 7));
            RecvError (atSecond 7)]).
Proof.
  split.
  - vm_compute. discriminate.
  - apply (proj2 (counters_sum_invariant (Hdr := exact.capability)
                    (atSecond 7) (atSecond 7)
                    [RecvLatency (mkLatencyEvent 100 (atSecond 7));
                     RecvError (atSecond 7)])).
    vm_compute. discriminate.
Defined.

Lemma window_archive_boundary_witness :
  Forall (fun v => 1 <= v <= 60 * 1000 * 1000) [100; 200; 300; 400; 500] /\
  windowedHistograms sixSuccesses !! 0 = Some (currentHistogram fiveSuccesses)
  /\ hdrhistogram.TotalCount (currentHistogram fiveSuccesses) = 5.
Proof.
  assert (Forall (fun v => 1 <= v <= 60 * 1000 * 1000)
            [100; 200; 300; 400; 500]) as Hlat.
  { repeat (apply Forall_cons; split); [..|apply Forall_nil_2]; lia. }
  split; [exact Hlat|].
  destruct (window_archive_boundary (Hdr := exact.capability)
              (atSecond 0) (atSecond 0) 100 200 300 400 500 600
              0 0 0 0 0 0 Hlat)
    as (_ & Hcount & Harchived & _).
  split; [exact Harchived|exact Hcount].
Defined.

Example window_archive_boundary_run :
  GetPreviousWindowStats sixSuccesses = (5, 300, 500, 500, 500) /\
  hdrhistogram.TotalCount (currentHistogram sixSuccesses) = 1.
Proof. vm_compute. split; reflexivity. Qed.

Lemma previous_window_snapshot_witness :
  windowedHistograms sixSuccesses
    !! int64.sub (currentWindowStartSecond sixSuccesses) MetricWindowSizeSeconds
  = Some (currentHistogram fiveSuccesses) /\
  GetPreviousWindowStats sixSuccesses =
  (hdrhistogram.TotalCount (currentHistogram fiveSuccesses),
   hdrhistogram.ValueAtQuantile (currentHistogram fiveSuccesses) 50%float,
   hdrhistogram.ValueAtQuantile (currentHistogram fiveSuccesses) 95%float,
   hdrhistogram.ValueAtQuantile (currentHistogram fiveSuccesses) 99%float,
   hdrhistogram.Max (currentHistogram fiveSuccesses)).
Proof.
  assert (windowedHistograms sixSuccesses
            !! int64.sub (currentWindowStartSecond sixSuccesses)
                 MetricWindowSizeSeconds
          = Some (currentHistogram fiveSuccesses)) as Hkey
    by (vm_compute; reflexivity).
  split; [exact Hkey|].
  apply (proj1 (previous_window_snapshot sixSuccesses)
           (currentHistogram fiveSuccesses) Hkey).
  vm_compute. discriminate.
Defined.

Lemma last_second_percentile_witness :
  windowedHistograms sixSuccesses !! int64.sub (time.Unix (atSecond 1)) 1
  = Some (currentHistogram fiveSuccesses) /\
  GetLastSecondPercentile sixSuccesses (atSecond 1) 50%float =
  hdrhistogram.ValueAtQuantile (currentHistogram fiveSuccesses) 50%float.
Proof.
  assert (windowedHistograms sixSuccesses
            !! int64.sub (time.Unix (atSecond 1)) 1
          = Some (currentHistogram fiveSuccesses)) as Hkey
    by (vm_compute; reflexivity).
  split; [exact Hkey|].
  apply (proj1 (last_second_percentile sixSuccesses (atSecond 1) 50%float)
           (currentHistogram fiveSuccesses) Hkey).
  vm_compute. reflexivity.
Defined.

Lemma empty_state_defaults_witness :
  is_nan 2.5%float = false /\
  (GetQPS (newAt 0) 2.5%float =? 0)%float = true /\
  GetPreviousWindowStats (newAt 0) = (0, 0, 0, 0, 0) /\
  GetOpsLastSecond (newAt 0) (atSecond 1) = 0.
Proof.
  assert (is_nan 2.5%float = false) as Hnum by reflexivity.
  split; [exact Hnum|].
  destruct (empty_state_defaults (Hdr := exact.capability)
              (atSecond 0) (atSecond 0) 2.5%float (atSecond 1) Hnum)
    as (Hqps & _ & _ & Hprev & Hops & _).
  split; [exact Hqps|]. split; [exact Hprev|exact Hops].
Defined.

Lemma overload_policy_witness :
  chan_full (errorChannel fullErrorMailbox) /\
  chan_len (errorChannel fullErrorMailbox) = 100 /\
  RecordError fullErrorMailbox = fullErrorMailbox.
Proof.
  assert (chan_full (errorChannel fullErrorMailbox)) as Hfull
    by (vm_compute; discriminate).
  split; [exact Hfull|]. split; [vm_compute; reflexivity|].
  apply (proj1 (proj2 (overload_policy (Hdr := exact.capability)))), Hfull.
Defined.

(** C2. The error case saves the finished second but does not clean up.
    An aggregator created at second 0 receives a latency event at second 0
    and an error signal at second 100, which stores key 0 in both maps.
    An error signal at second 200 then leaves key 0, 200 seconds old, in
    both maps; a latency event at second 200 removes it from both. *)
Theorem failure_path_skips_eviction :
  let st :=
    statsCollector (newAt 0)
      [RecvLatency (mkLatencyEvent 100 (atSecond 0)); RecvError (atSecond 100)]
  in
  lastSecond st = 100 /\
  perSecondOps st !! 0 = Some 1 /\
  perSecondOps (caseError st (atSecond 200)) !! 0 = Some 1 /\
  perSecondErrors (caseError st (atSecond 200)) !! 0 = Some 0 /\
  perSecondOps (caseLatency st (mkLatencyEvent 100 (atSecond 200))) !! 0
    = None /\
  perSecondErrors (caseLatency st (mkLatencyEvent 100 (atSecond 200))) !! 0
    = None.
Proof. vm_compute. repeat split. Qed.

(** C5. An aggregator created at second 0 receives a latency event at
    second 0 and then an error signal at second 61: after the event at
    second 0 + 61 has been processed, both per-second maps still hold key 0,
    and a lookup of second 0 returns the stored count, not the default. *)
Theorem stale_second_survives_failure :
  let ps :=
    statsCollector (newAt 0)
      [RecvLatency (mkLatencyEvent 100 (atSecond 0)); RecvError (atSecond 61)]
  in
  lastSecond ps = 61 /\
  perSecondOps ps !! 0 = Some 1 /\
  perSecondErrors ps !! 0 = Some 0 /\
  GetOpsLastSecond ps (atSecond 1) = 1.
Proof. vm_compute. repeat split. Qed.

(** ** Concrete runs of the further properties *)

(** A run every step of which can happen ends in [after]. *)
Lemma after_steps (w : World (Hdr := exact.capability)) (acts : list Action) :
  (if steps w acts then true else false) = true ->
  steps w acts = Some (after w acts).
Proof.
  unfold after. destruct (steps w acts); [reflexivity|discriminate].
Qed.

Lemma snapshot_after_drain_witness :
  Forall (fun v => 1 <= v <= 60 * 1000 * 1000) (latencies secondTen) /\
  0 < successes secondTen /\
  successes secondTen + failures secondTen <= int64.MaxInt64 /\
  hdrhistogram.TotalCount (Histogram (statsCollector (newAt 10) secondTen))
  = SuccessOps (statsCollector (newAt 10) secondTen) /\
  GetOverallStats (statsCollector (newAt 10) secondTen) 1%float
  = (3, 2, 1, GetQPS (statsCollector (newAt 10) secondTen) 1%float).
Proof.
  assert (Forall (fun v => 1 <= v <= 60 * 1000 * 1000) (latencies secondTen))
    as Hlat.
  { repeat (apply Forall_cons; split); [..|apply Forall_nil_2];
      cbn [LatencyMicros]; lia. }
  assert (0 < successes secondTen) as Hpos by reflexivity.
  assert (successes secondTen + failures secondTen <= int64.MaxInt64) as Hfit
    by (vm_compute; discriminate).
  split; [exact Hlat|]. split; [exact Hpos|]. split; [exact Hfit|].
  destruct (snapshot_after_drain (Hdr := exact.capability)
              (atSecond 10) (atSecond 10) secondTen 1%float Hlat Hpos Hfit)
    as (Hcount & _ & Hoverall).
  split; [exact Hcount|exact Hoverall].
Defined.

Lemma archive_never_shrinks_witness :
  is_Some (windowedHistograms sixSuccesses !! 0) /\
  is_Some
    (windowedHistograms (statsCollector sixSuccesses [RecvError (atSecond 9)])
       !! 0).
Proof.
  assert (is_Some (windowedHistograms sixSuccesses !! 0)) as Hkey
    by (vm_compute; eauto).
  split; [exact Hkey|].
  apply (archive_never_shrinks (Hdr := exact.capability) sixSuccesses
           [RecvError (atSecond 9)] 0 Hkey).
Defined.

Lemma previous_window_after_roll_witness :
  closesWindow fiveSuccesses (time.Unix (atSecond 7)) = true /\
  0 < hdrhistogram.TotalCount (currentHistogram fiveSuccesses) /\
  GetPreviousWindowStats
    (caseLatency fiveSuccesses (mkLatencyEvent 600 (atSecond 7)))
  = (0, 0, 0, 0, 0).
Proof.
  assert (closesWindow fiveSuccesses (time.Unix (atSecond 7)) = true) as Hclose
    by reflexivity.
  assert (0 < hdrhistogram.TotalCount (currentHistogram fiveSuccesses))
    as Hcount by reflexivity.
  split; [exact Hclose|]. split; [exact Hcount|].
  apply (proj2 (previous_window_after_roll (Hdr := exact.capability)
                  fiveSuccesses (mkLatencyEvent 600 (atSecond 7))
                  Hclose Hcount)).
  - vm_compute. discriminate.
  - vm_compute. reflexivity.
Defined.

Lemma cleanup_order_independent_witness :
  [0; 100] ≡ₚ [100; 0] /\
  evictLoop 200 [0; 100] staleSecond = evictLoop 200 [100; 0] staleSecond.
Proof.
  assert ([0; 100] ≡ₚ [100; 0]) as Hperm by apply Permutation_swap.
  split; [exact Hperm|].
  apply (cleanup_order_independent (Hdr := exact.capability) 200
           [0; 100] [100; 0] staleSecond Hperm).
Defined.

Lemma finished_second_counts_witness :
  Forall (inSecond 10) secondTen /\
  endsSecond 10 (RecvLatency (mkLatencyEvent 50 (atSecond 11))) /\
  GetOpsLastSecond
    (iteration (statsCollector (newAt 10) secondTen)
       (RecvLatency (mkLatencyEvent 50 (atSecond 11))))
    (atSecond 11) = 2 /\
  GetErrorsLastSecond
    (iteration (statsCollector (newAt 10) secondTen)
       (RecvLatency (mkLatencyEvent 50 (atSecond 11))))
    (atSecond 11) = 1.
Proof.
  assert (Forall (inSecond 10) secondTen) as Hall.
  { repeat (apply Forall_cons; split); [..|apply Forall_nil_2]; reflexivity. }
  assert (endsSecond 10 (RecvLatency (mkLatencyEvent 50 (atSecond 11))))
    as Hends.
  { split; [vm_compute; discriminate|vm_compute; discriminate]. }
  split; [exact Hall|]. split; [exact Hends|].
  apply (finished_second_counts (Hdr := exact.capability) 10 (newAt 10)
           secondTen (RecvLatency (mkLatencyEvent 50 (atSecond 11)))
           (atSecond 11)).
  - reflexivity.
  - reflexivity.
  - reflexivity.
  - exact Hall.
  - exact Hends.
  - reflexivity.
  - vm_compute. discriminate.
  - reflexivity.
Defined.

Lemma latency_event_evicts_old_seconds_witness :
  time.Unix (Timestamp (mkLatencyEvent 100 (atSecond 200)))
  <> lastSecond staleSecond /\
  60 < int64.sub (time.Unix (Timestamp (mkLatencyEvent 100 (atSecond 200)))) 0
  /\
  perSecondOps (caseLatency staleSecond (mkLatencyEvent 100 (atSecond 200)))
    !! 0 = None.
Proof.
  assert (time.Unix (Timestamp (mkLatencyEvent 100 (atSecond 200)))
          <> lastSecond staleSecond) as Hnew by (vm_compute; discriminate).
  assert (60 < int64.sub
                 (time.Unix (Timestamp (mkLatencyEvent 100 (atSecond 200)))) 0)
    as Hold by reflexivity.
  split; [exact Hnew|]. split; [exact Hold|].
  apply (proj1 (latency_event_evicts_old_seconds (Hdr := exact.capability)
                  staleSecond (mkLatencyEvent 100 (atSecond 200)) 0
                  Hnew Hold)).
Defined.

Lemma rolling_window_of_latency_events_witness :
  is_Some
    (perSecondOps
       (statsCollector (newAt 0)
          (map RecvLatency
             ([mkLatencyEvent 100 (atSecond 0)]
              ++ [mkLatencyEvent 100 (atSecond 30)]))) !! 0) /\
  int64.sub (time.Unix (Timestamp (mkLatencyEvent 100 (atSecond 30)))) 0 <= 60.
Proof.
  assert (is_Some
            (perSecondOps
               (statsCollector (newAt 0)
                  (map RecvLatency
                     ([mkLatencyEvent 100 (atSecond 0)]
                      ++ [mkLatencyEvent 100 (atSecond 30)]))) !! 0)) as Hkey
    by (vm_compute; eauto).
  split; [exact Hkey|].
  apply (rolling_window_of_latency_events (Hdr := exact.capability)
           (atSecond 0) (atSecond 0) [mkLatencyEvent 100 (atSecond 0)]
           (mkLatencyEvent 100 (atSecond 30)) 0).
  left. exact Hkey.
Defined.

Lemma record_then_collect_witness :
  buf (latencyChannel (newAt 0)) = [] /\
  0 < cap (latencyChannel (newAt 0)) /\
  exists ps',
    step (mkWorld (RecordLatency (newAt 0) 100 (atSecond 3)) true)
      CollectLatency
    = Some (mkWorld ps' true) /\
    sameAggregate ps'
      (caseLatency (newAt 0) (mkLatencyEvent 100 (atSecond 3))) /\
    buf (latencyChannel ps') = [].
Proof.
  assert (buf (latencyChannel (newAt 0)) = []) as Hempty by reflexivity.
  assert (0 < cap (latencyChannel (newAt 0))) as Hcap by reflexivity.
  split; [exact Hempty|]. split; [exact Hcap|].
  apply (proj1 (record_then_collect (Hdr := exact.capability) (newAt 0) 100
                  (atSecond 3) (atSecond 3)) Hempty Hcap).
Defined.

Lemma mailbox_conservation_witness :
  steps (create (atSecond 0) (atSecond 0)) shortRun
  = Some (after (create (atSecond 0) (atSecond 0)) shortRun) /\
  calledErrors shortRun <= 100 /\
  chan_len
    (errorChannel (stats (after (create (atSecond 0) (atSecond 0)) shortRun)))
  + collectedErrors shortRun = calledErrors shortRun.
Proof.
  assert (steps (create (atSecond 0) (atSecond 0)) shortRun
          = Some (after (create (atSecond 0) (atSecond 0)) shortRun)) as Hrun
    by (apply after_steps; vm_compute; reflexivity).
  assert (calledErrors shortRun <= 100) as Hfew by (vm_compute; discriminate).
  split; [exact Hrun|]. split; [exact Hfew|].
  apply (proj2 (proj2 (mailbox_conservation (Hdr := exact.capability)
                         (atSecond 0) (atSecond 0) shortRun _ Hrun))), Hfew.
Defined.

Lemma returned_collector_freezes_aggregate_witness :
  collectorRunning (mkWorld (newAt 0) false) = false /\
  steps (mkWorld (newAt 0) false) [CallRecordError; CallClose]
  = Some (after (mkWorld (newAt 0) false) [CallRecordError; CallClose]) /\
  sameAggregate
    (stats (after (mkWorld (newAt 0) false) [CallRecordError; CallClose]))
    (newAt 0).
Proof.
  assert (steps (mkWorld (newAt 0) false) [CallRecordError; CallClose]
          = Some (after (mkWorld (newAt 0) false) [CallRecordError; CallClose]))
    as Hrun by (apply after_steps; vm_compute; reflexivity).
  split; [reflexivity|]. split; [exact Hrun|].
  apply (returned_collector_freezes_aggregate (Hdr := exact.capability)
           [CallRecordError; CallClose] (mkWorld (newAt 0) false) _
           eq_refl Hrun).
Defined.

Lemma close_at_most_once_witness :
  steps (create (atSecond 0) (atSecond 0)) shortRun
  = Some (after (create (atSecond 0) (atSecond 0)) shortRun) /\
  calledCloses shortRun <= 1.
Proof.
  assert (steps (create (atSecond 0) (atSecond 0)) shortRun
          = Some (after (create (atSecond 0) (atSecond 0)) shortRun)) as Hrun
    by (apply after_steps; vm_compute; reflexivity).
  split; [exact Hrun|].
  apply (close_at_most_once (Hdr := exact.capability)
           (atSecond 0) (atSecond 0) shortRun _ Hrun).
Defined.

Lemma system_counters_witness :
  steps (create (atSecond 0) (atSecond 0)) shortRun
  = Some (after (create (atSecond 0) (atSecond 0)) shortRun) /\
  collectedLatencies shortRun + collectedErrors shortRun <= int64.MaxInt64 /\
  TotalOps (stats (after (create (atSecond 0) (atSecond 0)) shortRun)) = 2.
Proof.
  assert (steps (create (atSecond 0) (atSecond 0)) shortRun
          = Some (after (create (atSecond 0) (atSecond 0)) shortRun)) as Hrun
    by (apply after_steps; vm_compute; reflexivity).
  assert (collectedLatencies shortRun + collectedErrors shortRun
          <= int64.MaxInt64) as Hfit by (vm_compute; discriminate).
  split; [exact Hrun|]. split; [exact Hfit|].
  apply (system_counters (Hdr := exact.capability)
           (atSecond 0) (atSecond 0) shortRun _ Hrun Hfit).
Defined.

Lemma system_invariants_witness :
  steps (create (atSecond 0) (atSecond 0)) shortRun
  = Some (after (create (atSecond 0) (atSecond 0)) shortRun) /\
  dom (perSecondOps
         (stats (after (create (atSecond 0) (atSecond 0)) shortRun)))
  = dom (perSecondErrors
           (stats (after (create (atSecond 0) (atSecond 0)) shortRun))).
Proof.
  assert (steps (create (atSecond 0) (atSecond 0)) shortRun
          = Some (after (create (atSecond 0) (atSecond 0)) shortRun)) as Hrun
    by (apply after_steps; vm_compute; reflexivity).
  split; [exact Hrun|].
  apply (system_invariants (Hdr := exact.capability)
           (atSecond 0) (atSecond 0) shortRun _ Hrun).
Defined.
